(** * ltc command factory: port, route and environment resolution, and
      the convergence poller

    A shallow embedding of [ltc/app_runner/command_factory] (package
    [command_factory]) together with the few Go library functions it
    calls.  Strings are byte strings, Go's [int] is a 64-bit integer
    carried as a [Z], [uint16(x)] is written out as [x mod 2^16], maps
    are [gmap]s, and everything the factory does to its collaborators
    (terminal, cluster, metadata fetcher, log streamer, exit handler) is
    an event appended to a trace. *)

From Stdlib Require Import ZArith String Ascii List Lia DecimalString.
From stdpp Require Import gmap strings list sorting.
From Stdlib Require Import DecimalPos.
From Equations Require Import Equations.
Import ListNotations.
Local Open Scope string_scope.
Local Open Scope Z_scope.

(** ** Go's [strings] package, for one-byte separators *)

Module strings.

(** [strings.Split(s, sep)]: the pieces of [s] between the occurrences
    of [sep]; always at least one piece: the empty string splits into one
    empty piece. *)
Fixpoint Split (s : string) (sep : ascii) : list string :=
  match s with
  | EmptyString => [EmptyString]
  | String c s' =>
      if Ascii.eqb c sep then EmptyString :: Split s' sep
      else match Split s' sep with
           | piece :: pieces => String c piece :: pieces
           | [] => [String c EmptyString]
           end
  end.

(** [strings.Join(elems, sep)]. *)
Fixpoint Join (elems : list string) (sep : string) : string :=
  match elems with
  | [] => EmptyString
  | [e] => e
  | e :: rest => e +:+ sep +:+ Join rest sep
  end.

(** [strings.HasPrefix(s, prefix)]. *)
Definition HasPrefix (s prefix : string) : bool := String.prefix prefix s.

(** The byte [c] occurs in [s]. *)
Fixpoint contains (c : ascii) (s : string) : bool :=
  match s with
  | EmptyString => false
  | String d s' => Ascii.eqb d c || contains c s'
  end.

(** The text of [s] before the first [c] (all of [s] when there is none). *)
Fixpoint before (c : ascii) (s : string) : string :=
  match s with
  | EmptyString => EmptyString
  | String d s' => if Ascii.eqb d c then EmptyString else String d (before c s')
  end.

(** The text of [s] after the first [c] (empty when there is none). *)
Fixpoint after (c : ascii) (s : string) : string :=
  match s with
  | EmptyString => EmptyString
  | String d s' => if Ascii.eqb d c then s' else after c s'
  end.

End strings.

(** ** Go's [strconv] package *)

Module strconv.

Definition minInt : Z := - 2 ^ 63.
Definition maxInt : Z := 2 ^ 63 - 1.

Definition digit (c : ascii) : option Z :=
  let n := Z.of_nat (nat_of_ascii c) in
  if (48 <=? n) && (n <=? 57) then Some (n - 48) else None.

(** The digit loop of [ParseUint]: [n = n*10 + (c - '0')]. *)
Fixpoint digits (acc : Z) (s : string) : option Z :=
  match s with
  | EmptyString => Some acc
  | String c s' =>
      match digit c with
      | Some d => digits (10 * acc + d) s'
      | None => None
      end
  end.

(** [strconv.Atoi(s)]: an optional sign followed by at least one decimal
    digit; [None] stands for a non-nil error (syntax, or a value that
    does not fit an [int]). *)
Definition Atoi (s : string) : option Z :=
  match s with
  | EmptyString => None
  | String c s' =>
      let '(neg, body) :=
        if Ascii.eqb c "-" then (true, s')
        else if Ascii.eqb c "+" then (false, s')
        else (false, s) in
      match body with
      | EmptyString => None
      | _ =>
          match digits 0 body with
          | Some n =>
              let v := if neg then - n else n in
              if (minInt <=? v) && (v <=? maxInt) then Some v else None
          | None => None
          end
      end
  end.

(** [strconv.Itoa(i)], also the [%d] verb of [fmt.Sprintf]. *)
Definition Itoa (i : Z) : string := NilZero.string_of_int (Z.to_int i).

End strconv.

(** ** Go's [sort] package *)

Module sort.

(** [sort.Strings(a)]: ascending byte-wise order.  The order is total and
    equal strings are identical, so the result does not depend on the
    sorting algorithm. *)
Definition Strings (a : list string) : list string := merge_sort String.leb a.

End sort.

(** Fixed-width conversions. *)
Definition uint16 (x : Z) : Z := x mod 2 ^ 16.
Definition uint (x : Z) : Z := x mod 2 ^ 64.

(** ** Collaborators of the factory *)

(** A Go [error]: [None] is [nil], [Some msg] carries [err.Error()]. *)
Definition error : Type := option string.

Module colors.
(** [colors.Green(s)] and [colors.Red(s)] wrap [s] in a terminal colour;
    the wrapping is kept symbolic. *)
Inductive Text : Type :=
| Plain (s : string)
| Green (s : string)
| Red (s : string).
End colors.
Coercion colors.Plain : string >-> colors.Text.

Module exit_codes.
(** The one exit code this package signals. *)
Inductive ExitCode : Type := PlacementError.
End exit_codes.

Module docker_app_runner.

Record PortConfig : Type := {
  Monitored : Z;           (* uint16 *)
  Exposed : list Z         (* []uint16 *)
}.

(** Modelled from the spec: [PortConfig.IsEmpty] is not among the sources;
    the spec speaks of metadata that "declares no ports". *)
Definition IsEmpty (portConfig : PortConfig) : bool :=
  match Exposed portConfig with [] => true | _ => false end.

Record RouteOverride : Type := {
  HostnamePrefix : string;
  Port : Z                 (* uint16 *)
}.

(** A nil slice and an empty one are both [[]]: every slice this code
    builds is nil or has an element. *)
Definition RouteOverrides : Type := list RouteOverride.

Record CreateDockerAppParams : Type := {
  Name : string;
  DockerImagePath : string;
  StartCommand : string;
  AppArgs : list string;
  EnvironmentVariables : gmap string string;
  Privileged : bool;
  Monitor : bool;
  Instances : Z;
  CPUWeight : Z;           (* uint *)
  MemoryMB : Z;
  DiskMB : Z;
  Ports : PortConfig;
  WorkingDir : string;
  RouteOverrides_ : RouteOverrides
}.

(** The answers of the cluster.  [RunningAppInstancesInfo] is asked once
    per poll: its answer (running instances, placement error) may depend
    on how many times it has been asked before. *)
Record AppRunner : Type := {
  CreateDockerApp : CreateDockerAppParams -> error;
  ScaleApp : string -> Z -> error;
  RunningAppInstancesInfo : string -> nat -> Z * bool
}.

End docker_app_runner.

Module docker_metadata_fetcher.

Record ImageMetadata : Type := {
  WorkingDir : string;
  StartCommand : list string;
  Ports : docker_app_runner.PortConfig
}.

(** [FetchMetadata(dockerImage)]: the metadata, or an error message. *)
Definition DockerMetadataFetcher : Type := string -> ImageMetadata + string.

End docker_metadata_fetcher.

(** ** The world the factory acts on *)

(** Calls made on the collaborators, in the order they are made. *)
Inductive Event : Type :=
| ui_Say (message : colors.Text)
| ui_SayLine (message : colors.Text)
| ui_IncorrectUsage (message : colors.Text)
| ui_NewLine
| fetcher_FetchMetadata (dockerImage : string)
| runner_CreateDockerApp (params : docker_app_runner.CreateDockerAppParams)
| runner_ScaleApp (name : string) (instances : Z)
| runner_RunningAppInstancesInfo (name : string)
| logs_OutputTailedLogs (name : string)   (* started with [go] *)
| logs_StopOutputting
| exitHandler_Exit (code : exit_codes.ExitCode).

(** Everything but the clock.  [placementErrorOccurred] is the variable of
    [pollUntilAllInstancesRunning] that its polling closure captures and
    writes. *)
Record Sys : Type := {
  trace : list Event;
  polls : nat;                      (* RunningAppInstancesInfo calls so far *)
  placementErrorOccurred : bool
}.

(** The injected clock in its simulated form: time (in nanoseconds) passes
    only in [Sleep].  [pollTimes] is a ghost record of the instants at
    which [pollUntilSuccess] invoked its polling function. *)
Record World : Type := {
  now : Z;
  pollTimes : list Z;
  sys : Sys
}.

Definition Second : Z := 1000000000.

Definition State (S A : Type) : Type := S -> A * S.
Definition ret {S A} (a : A) : State S A := fun s => (a, s).
Definition bind {S A B} (m : State S A) (k : A -> State S B) : State S B :=
  fun s => let '(a, s') := m s in k a s'.

Declare Scope state_scope.
Delimit Scope state_scope with state.
Notation "x <- m ;; k" := (bind m (fun x => k))
  (at level 100, m at next level, right associativity) : state_scope.
Notation "m ;; k" := (bind m (fun _ => k))
  (at level 100, right associativity) : state_scope.
Local Open Scope state_scope.

Definition emit (e : Event) : State Sys unit :=
  fun s => (tt, {| trace := (trace s ++ [e])%list; polls := polls s;
                   placementErrorOccurred := placementErrorOccurred s |}).

(** Run an action that does not use the clock. *)
Definition lift {A} (m : State Sys A) : State World A :=
  fun w => let '(a, s) := m (sys w) in
           (a, {| now := now w; pollTimes := pollTimes w; sys := s |}).

Definition clock_Now : State World Z := fun w => (now w, w).
Definition clock_Sleep (d : Z) : State World unit :=
  fun w => (tt, {| now := now w + d; pollTimes := pollTimes w; sys := sys w |}).

Definition with_sys (w : World) (s : Sys) : World :=
  {| now := now w; pollTimes := pollTimes w; sys := s |}.

(** Ghost: note that the polling function is invoked at this instant. *)
Definition polled (w : World) : World :=
  {| now := now w; pollTimes := (pollTimes w ++ [now w])%list; sys := sys w |}.

Definition set_placementErrorOccurred (b : bool) : State Sys unit :=
  fun s => (tt, {| trace := trace s; polls := polls s; placementErrorOccurred := b |}).

Definition get_placementErrorOccurred : State Sys bool :=
  fun s => (placementErrorOccurred s, s).

(** The line feed and the tab that end and indent the messages. *)
Definition LF : string := String (ascii_of_nat 10) EmptyString.
Definition TAB : string := String (ascii_of_nat 9) EmptyString.

Module cli.

(** The flags and the positional arguments of one [ltc create]. *)
Record Context : Type := {
  working_dir : string;
  env_flag : list string;
  instances : Z;
  cpu_weight : Z;
  memory_mb : Z;
  disk_mb : Z;
  ports : string;
  monitored_port : Z;
  routes : string;
  no_monitor : bool;
  run_as_root : bool;
  Args : list string
}.

(** [context.Args().Get(n)]: the n-th positional argument, the empty string
    when it is absent. *)
Definition Get (args : list string) (n : nat) : string := nth n args EmptyString.

End cli.

(** ** Package [command_factory] *)

Definition InvalidPortErrorMessage : string :=
  "Invalid port specified. Ports must be a comma-delimited list of integers between 0-65535.".
Definition MalformedRouteErrorMessage : string :=
  "Malformed route. Routes must be of the format route:port".
Definition MustSetMonitoredPortErrorMessage : string :=
  "Must set monitored-port when specifying multiple exposed ports unless --no-monitor is set.".

Record AppRunnerCommandFactory : Type := {
  appRunner : docker_app_runner.AppRunner;
  dockerMetadataFetcher : docker_metadata_fetcher.DockerMetadataFetcher;
  timeout : Z;                      (* time.Duration, nanoseconds *)
  domain : string;
  env : list string
}.

(** How a command handler ends: it returns, or it panics on an index out of
    range. *)
Inductive Outcome : Type := Returned | Panicked.

(** [s[0]] and [s[1]] where the code has checked, or [Split] guarantees,
    that the index is in range. *)
Definition at0 (s : list string) : string := nth 0 s EmptyString.
Definition at1 (s : list string) : string := nth 1 s EmptyString.

Definition parseEnvVarPair (envVarPair : string) : string * string :=
  let s := strings.Split envVarPair "=" in
  if (1 <? length s)%nat then (at0 s, at1 s) else (at0 s, EmptyString).

Fixpoint grabVarFromEnv_range (entries : list string) (name : string) : string :=
  match entries with
  | [] => EmptyString
  | envVarPair :: rest =>
      if strings.HasPrefix envVarPair name then snd (parseEnvVarPair envVarPair)
      else grabVarFromEnv_range rest name
  end.

Definition grabVarFromEnv (factory : AppRunnerCommandFactory) (name : string) : string :=
  grabVarFromEnv_range (env factory) name.

Fixpoint buildEnvironment_range (factory : AppRunnerCommandFactory)
    (envVars : list string) (environment : gmap string string) : gmap string string :=
  match envVars with
  | [] => environment
  | envVarPair :: rest =>
      let '(name, value) := parseEnvVarPair envVarPair in
      let value := if String.eqb value EmptyString then grabVarFromEnv factory name else value in
      buildEnvironment_range factory rest (<[name := value]> environment)
  end.

Definition buildEnvironment (factory : AppRunnerCommandFactory) (envVars : list string)
    : gmap string string :=
  buildEnvironment_range factory envVars ∅.

Definition urlForApp (factory : AppRunnerCommandFactory) (name : string) : string :=
  "http://" +:+ name +:+ "." +:+ domain factory +:+ LF.

(** The loop of [getPortConfigFromArgs] over the sorted port strings;
    [None] is the early return with [InvalidPortErrorMessage]. *)
Fixpoint convertPorts (portStrings : list string) (convertedPorts : list Z)
    : option (list Z) :=
  match portStrings with
  | [] => Some convertedPorts
  | p :: rest =>
      match strconv.Atoi p with
      | Some intPort =>
          if 65535 <? intPort then None
          else convertPorts rest (convertedPorts ++ [uint16 intPort])%list
      | None => None
      end
  end.

Definition zeroPortConfig : docker_app_runner.PortConfig :=
  {| docker_app_runner.Monitored := 0; docker_app_runner.Exposed := [] |}.

Definition getPortConfigFromArgs (factory : AppRunnerCommandFactory)
    (portsFlag : string) (monitoredPortFlag : Z) (noMonitorFlag : bool)
    (imageMetadata : docker_metadata_fetcher.ImageMetadata)
    : State Sys (docker_app_runner.PortConfig * error) :=
  let metadataPorts := docker_metadata_fetcher.Ports imageMetadata in
  if String.eqb portsFlag EmptyString && negb (docker_app_runner.IsEmpty metadataPorts) then
    let portStrs := map strconv.Itoa (docker_app_runner.Exposed metadataPorts) in
    emit (ui_Say ("No port specified, using exposed ports from the image metadata."
                  +:+ LF +:+ TAB +:+ "Exposed Ports: " +:+ strings.Join portStrs ", " +:+ LF)) ;;
    ret (metadataPorts, None)
  else if String.eqb portsFlag EmptyString && docker_app_runner.IsEmpty metadataPorts
          && noMonitorFlag then
    ret ({| docker_app_runner.Monitored := 0; docker_app_runner.Exposed := [8080] |}, None)
  else if String.eqb portsFlag EmptyString && docker_app_runner.IsEmpty metadataPorts then
    emit (ui_Say ("No port specified, image metadata did not contain exposed ports. Defaulting to 8080."
                  +:+ LF)) ;;
    ret ({| docker_app_runner.Monitored := 8080; docker_app_runner.Exposed := [8080] |}, None)
  else
    let portStrings := strings.Split portsFlag "," in
    if (1 <? length portStrings)%nat && (monitoredPortFlag =? 0) && negb noMonitorFlag then
      ret (zeroPortConfig, Some MustSetMonitoredPortErrorMessage)
    else
      let portStrings := sort.Strings portStrings in
      match convertPorts portStrings [] with
      | None => ret (zeroPortConfig, Some InvalidPortErrorMessage)
      | Some convertedPorts =>
          let monitoredPort :=
            if (1 <? length portStrings)%nat then uint16 monitoredPortFlag
            else nth 0 convertedPorts 0 in
          ret ({| docker_app_runner.Monitored := monitoredPort;
                  docker_app_runner.Exposed := convertedPorts |}, None)
      end.

(** The loop of [parseRouteOverrides] over the comma-separated segments. *)
Fixpoint parseRouteOverrides_range (segments : list string)
    (routeOverrides : docker_app_runner.RouteOverrides)
    : docker_app_runner.RouteOverrides * error :=
  match segments with
  | [] => (routeOverrides, None)
  | route :: rest =>
      if String.eqb route EmptyString then parseRouteOverrides_range rest routeOverrides
      else
        let routeArr := strings.Split route ":" in
        match strconv.Atoi (at0 routeArr) with
        | None => ([], Some MalformedRouteErrorMessage)
        | Some maybePort =>
            if (length routeArr <? 2)%nat then ([], Some MalformedRouteErrorMessage)
            else
              let port := uint16 maybePort in
              let hostnamePrefix := at1 routeArr in
              parseRouteOverrides_range rest
                (routeOverrides ++ [{| docker_app_runner.HostnamePrefix := hostnamePrefix;
                                       docker_app_runner.Port := port |}])%list
        end
  end.

Definition parseRouteOverrides (routes : string)
    : docker_app_runner.RouteOverrides * error :=
  parseRouteOverrides_range (strings.Split routes ",") [].

(** *** The convergence poller *)

(** Sleeps of one second still to come before [deadline], seen from
    instant [t]: the measure that decreases around the polling loop. *)
Definition sleepsLeft (deadline t : Z) : nat :=
  Z.to_nat ((deadline - t + Second - 1) / Second).

(** The [for] loop of [pollUntilSuccess].  The loop condition
    [startingTime.Add(factory.timeout).After(factory.clock.Now())] is
    [now < startingTime + timeout]. *)
Equations? pollLoop (factory : AppRunnerCommandFactory) (pollingFunc : State Sys bool)
    (outputProgress : bool) (startingTime : Z) (w : World) : bool * World
    by wf (sleepsLeft (startingTime + timeout factory) (now w)) lt :=
  pollLoop factory pollingFunc outputProgress startingTime w
    with Z_lt_dec (now w) (startingTime + timeout factory) => {
    | right _ => (lift (emit ui_NewLine) ;; ret false) w
    | left _ with pollingFunc (sys w) => {
      | (true, s) => (lift (emit ui_NewLine) ;; ret true) (with_sys (polled w) s)
      | (false, s) =>
          pollLoop factory pollingFunc outputProgress startingTime
            (snd ((lift (if outputProgress then emit (ui_Say ".") else ret tt) ;;
                   clock_Sleep (1 * Second)) (with_sys (polled w) s))) } }.
Proof.
  assert (Hn : now (snd ((lift (if outputProgress then emit (ui_Say ".") else ret tt) ;;
                          clock_Sleep (1 * Second)) (with_sys (polled w) s)))
               = now w + Second)
    by (destruct outputProgress; reflexivity).
  rewrite Hn. unfold sleepsLeft.
  replace (startingTime + timeout factory - (now w + Second) + Second - 1)
    with (startingTime + timeout factory - now w - 1) by lia.
  replace (startingTime + timeout factory - now w + Second - 1)
    with (startingTime + timeout factory - now w - 1 + 1 * Second) by lia.
  rewrite Z_div_plus by (unfold Second; lia).
  assert (0 <= (startingTime + timeout factory - now w - 1) / Second)
    by (apply Z.div_pos; unfold Second; lia).
  lia.
Qed.

Definition pollUntilSuccess (factory : AppRunnerCommandFactory)
    (pollingFunc : State Sys bool) (outputProgress : bool) : State World bool :=
  startingTime <- clock_Now ;;
  pollLoop factory pollingFunc outputProgress startingTime.

Definition PlacementErrorMessage : string :=
  "Error, could not place all instances: insufficient resources. Try requesting fewer instances or reducing the requested memory or disk capacity.".

(** [factory.appRunner.RunningAppInstancesInfo(appName)]; the error it also
    returns is discarded by the caller. *)
Definition query_RunningAppInstancesInfo (factory : AppRunnerCommandFactory)
    (appName : string) : State Sys (Z * bool) :=
  fun s =>
    (docker_app_runner.RunningAppInstancesInfo (appRunner factory) appName (polls s),
     {| trace := (trace s ++ [runner_RunningAppInstancesInfo appName])%list;
        polls := S (polls s);
        placementErrorOccurred := placementErrorOccurred s |}).

(** The closure handed to [pollUntilSuccess] by [pollUntilAllInstancesRunning]. *)
Definition allInstancesRunning (factory : AppRunnerCommandFactory)
    (appName : string) (instances : Z) : State Sys bool :=
  info <- query_RunningAppInstancesInfo factory appName ;;
  let '(numberOfRunningInstances, placementError) := info in
  if placementError then
    emit (ui_Say (colors.Red PlacementErrorMessage)) ;;
    set_placementErrorOccurred true ;;
    ret true
  else ret (numberOfRunningInstances =? instances).

Definition pollUntilAllInstancesRunning (factory : AppRunnerCommandFactory)
    (appName : string) (instances : Z) (action : string) : State World bool :=
  lift (set_placementErrorOccurred false) ;;
  ok <- pollUntilSuccess factory (allInstancesRunning factory appName instances) true ;;
  placementErrorOccurred <- lift get_placementErrorOccurred ;;
  if placementErrorOccurred then
    lift (emit (exitHandler_Exit exit_codes.PlacementError)) ;;
    ret false
  else
    (if negb ok then
       lift (emit (ui_SayLine
                     (colors.Red (appName +:+ " took too long to " +:+ action +:+ "."))))
     else ret tt) ;;
    ret ok.

Definition setAppInstances (factory : AppRunnerCommandFactory)
    (appName : string) (instances : Z) : State World unit :=
  lift (emit (runner_ScaleApp appName instances)) ;;
  match docker_app_runner.ScaleApp (appRunner factory) appName instances with
  | Some err =>
      lift (emit (ui_Say ("Error Scaling App to " +:+ strconv.Itoa instances
                          +:+ " instances: " +:+ err)))
  | None =>
      lift (emit (ui_Say ("Scaling " +:+ appName +:+ " to " +:+ strconv.Itoa instances
                          +:+ " instances " +:+ LF))) ;;
      ok <- pollUntilAllInstancesRunning factory appName instances "scale" ;;
      if ok then lift (emit (ui_Say (colors.Green "App Scaled Successfully")))
      else ret tt
  end.

Definition scaleApp (factory : AppRunnerCommandFactory) (args : list string)
    : State World unit :=
  let appName := cli.Get args 0 in
  let instancesArg := cli.Get args 1 in
  if String.eqb appName EmptyString || String.eqb instancesArg EmptyString then
    lift (emit (ui_IncorrectUsage "Please enter 'ltc scale APP_NAME NUMBER_OF_INSTANCES'"))
  else
    match strconv.Atoi instancesArg with
    | None => lift (emit (ui_IncorrectUsage "Number of Instances must be an integer"))
    | Some instances => setAppInstances factory appName instances
    end.

(** *** The create command *)

(** The [switch] at the head of [createApp]: the message of a usage error,
    or the application arguments to go on with.  A Go [switch] runs the
    first case that holds and no other. *)
Definition createApp_switch (args : list string) (startCommand terminator : string)
    (cpuWeightFlag : Z) : string + list string :=
  if (length args <? 2)%nat then
    inl "APP_NAME and DOCKER_IMAGE are required"
  else if negb (String.eqb startCommand EmptyString) && negb (String.eqb terminator "--") then
    inl "'--' Required before start command"
  else if (4 <? length args)%nat then
    inr (drop 4 args)
  else if (cpuWeightFlag <? 1) || (100 <? cpuWeightFlag) then
    inl "Invalid CPU Weight"
  else
    inr [].

(** What [createApp] carries past a successful [CreateDockerApp]. *)
Record Submitted : Type := {
  sub_name : string;
  sub_instances : Z;
  sub_routesFlag : string;
  sub_routeOverrides : docker_app_runner.RouteOverrides
}.

(** [createApp] up to and including the call of [CreateDockerApp] and the
    report that follows it; [None] when the handler has returned early. *)
Definition createApp_submit (factory : AppRunnerCommandFactory) (context : cli.Context)
    : State Sys (option Submitted) :=
  let workingDirFlag := cli.working_dir context in
  let envVarsFlag := cli.env_flag context in
  let instancesFlag := cli.instances context in
  let cpuWeightFlag := uint (cli.cpu_weight context) in
  let memoryMBFlag := cli.memory_mb context in
  let diskMBFlag := cli.disk_mb context in
  let portsFlag := cli.ports context in
  let monitoredPortFlag := cli.monitored_port context in
  let routesFlag := cli.routes context in
  let noMonitorFlag := cli.no_monitor context in
  let name := cli.Get (cli.Args context) 0 in
  let dockerImage := cli.Get (cli.Args context) 1 in
  let terminator := cli.Get (cli.Args context) 2 in
  let startCommand := cli.Get (cli.Args context) 3 in
  match createApp_switch (cli.Args context) startCommand terminator cpuWeightFlag with
  | inl usage => emit (ui_IncorrectUsage usage) ;; ret None
  | inr appArgs =>
  emit (fetcher_FetchMetadata dockerImage) ;;
  match dockerMetadataFetcher factory dockerImage with
  | inr err => emit (ui_Say ("Error fetching image metadata: " +:+ err)) ;; ret None
  | inl imageMetadata =>
  resolved <- getPortConfigFromArgs factory portsFlag monitoredPortFlag noMonitorFlag
                imageMetadata ;;
  match resolved with
  | (_, Some err) => emit (ui_Say err) ;; ret None
  | (portConfig, None) =>
  workingDirFlag <-
    (if String.eqb workingDirFlag EmptyString then
       emit (ui_Say ("No working directory specified, using working directory from the image metadata..."
                     +:+ LF)) ;;
       if negb (String.eqb (docker_metadata_fetcher.WorkingDir imageMetadata) EmptyString) then
         emit (ui_Say ("Working directory is:" +:+ LF)) ;;
         emit (ui_Say (docker_metadata_fetcher.WorkingDir imageMetadata +:+ LF)) ;;
         ret (docker_metadata_fetcher.WorkingDir imageMetadata)
       else ret "/"
     else ret workingDirFlag) ;;
  (if negb noMonitorFlag then
     emit (ui_Say ("Monitoring the app on port "
                   +:+ strconv.Itoa (docker_app_runner.Monitored portConfig) +:+ "..." +:+ LF))
   else emit (ui_Say ("No ports will be monitored." +:+ LF))) ;;
  command <-
    (if String.eqb startCommand EmptyString then
       match docker_metadata_fetcher.StartCommand imageMetadata with
       | [] =>
           emit (ui_SayLine "Unable to determine start command from image metadata.") ;;
           ret None
       | first :: others =>
           emit (ui_Say ("No start command specified, using start command from the image metadata..."
                         +:+ LF)) ;;
           emit (ui_Say ("Start command is:" +:+ LF)) ;;
           emit (ui_Say (strings.Join (docker_metadata_fetcher.StartCommand imageMetadata) " "
                         +:+ LF)) ;;
           ret (Some (first, others))
       end
     else ret (Some (startCommand, appArgs))) ;;
  match command with
  | None => ret None
  | Some (startCommand, appArgs) =>
  match parseRouteOverrides routesFlag with
  | (_, Some err) => emit (ui_Say err) ;; ret None
  | (routeOverrides, None) =>
  let params :=
    {| docker_app_runner.Name := name;
       docker_app_runner.DockerImagePath := dockerImage;
       docker_app_runner.StartCommand := startCommand;
       docker_app_runner.AppArgs := appArgs;
       docker_app_runner.EnvironmentVariables := buildEnvironment factory envVarsFlag;
       docker_app_runner.Privileged := cli.run_as_root context;
       docker_app_runner.Monitor := negb noMonitorFlag;
       docker_app_runner.Instances := instancesFlag;
       docker_app_runner.CPUWeight := cpuWeightFlag;
       docker_app_runner.MemoryMB := memoryMBFlag;
       docker_app_runner.DiskMB := diskMBFlag;
       docker_app_runner.Ports := portConfig;
       docker_app_runner.WorkingDir := workingDirFlag;
       docker_app_runner.RouteOverrides_ := routeOverrides |} in
  emit (runner_CreateDockerApp params) ;;
  match docker_app_runner.CreateDockerApp (appRunner factory) params with
  | Some err => emit (ui_Say ("Error Creating App: " +:+ err)) ;; ret None
  | None =>
  emit (ui_Say ("Creating App: " +:+ name +:+ LF)) ;;
  ret (Some {| sub_name := name; sub_instances := instancesFlag;
               sub_routesFlag := routesFlag; sub_routeOverrides := routeOverrides |})
  end end end end end end.

(** The loop that prints one URL per comma-separated piece of the routes
    flag, [strings.Split(route, ":")[1]] being out of range for a piece
    without a colon. *)
Fixpoint sayRouteUrls (factory : AppRunnerCommandFactory) (routes : list string)
    : State Sys Outcome :=
  match routes with
  | [] => ret Returned
  | route :: rest =>
      match strings.Split route ":" with
      | _ :: hostnamePrefix :: _ =>
          emit (ui_Say (colors.Green (urlForApp factory hostnamePrefix))) ;;
          sayRouteUrls factory rest
      | _ => ret Panicked
      end
  end.

(** [createApp] from the [go] statement on: the convergence wait and the
    reports after it.  The deferred [StopOutputting] runs last, on return
    and on panic alike. *)
Definition createApp_wait (factory : AppRunnerCommandFactory) (sub : Submitted)
    : State World Outcome :=
  let name := sub_name sub in
  lift (emit (logs_OutputTailedLogs name)) ;;
  ok <- pollUntilAllInstancesRunning factory name (sub_instances sub) "start" ;;
  (if ok then lift (emit (ui_Say (colors.Green (name +:+ " is now running." +:+ LF))))
   else ret tt) ;;
  outcome <-
    lift (match sub_routeOverrides sub with
          | _ :: _ => sayRouteUrls factory (strings.Split (sub_routesFlag sub) ",")
          | [] => emit (ui_Say (colors.Green (urlForApp factory name))) ;; ret Returned
          end) ;;
  lift (emit logs_StopOutputting) ;;
  ret outcome.

Definition createApp (factory : AppRunnerCommandFactory) (context : cli.Context)
    : State World Outcome :=
  submitted <- lift (createApp_submit factory context) ;;
  match submitted with
  | None => ret Returned
  | Some sub => createApp_wait factory sub
  end.

(** *** The update-routes and remove commands *)

(** The answers of the cluster to the calls these two commands make on
    [appRunner].  The calls themselves leave no event; [AppExists] is asked
    once per poll, and its answer may depend on how many polls went before,
    which the commands count in [polls]. *)
Record AppLifecycle : Type := {
  UpdateAppRoutes : string -> docker_app_runner.RouteOverrides -> error;
  RemoveApp : string -> error;
  AppExists : string -> nat -> bool * error
}.

Definition updateAppRoutes (lifecycle : AppLifecycle) (args : list string)
    : State Sys unit :=
  let appName := cli.Get args 0 in
  let userDefinedRoutes := cli.Get args 1 in
  if String.eqb appName EmptyString || String.eqb userDefinedRoutes EmptyString then
    emit (ui_IncorrectUsage "Please enter 'ltc update-routes APP_NAME NEW_ROUTES'")
  else
    match parseRouteOverrides userDefinedRoutes with
    | (_, Some err) => emit (ui_Say err)
    | (desiredRoutes, None) =>
        match UpdateAppRoutes lifecycle appName desiredRoutes with
        | Some err => emit (ui_Say ("Error updating routes: " +:+ err))
        | None =>
            emit (ui_Say ("Updating " +:+ appName
                          +:+ " routes. You can check this app's current routes by running 'ltc status "
                          +:+ appName +:+ "'"))
        end
    end.

(** The closure handed to [pollUntilSuccess] by [removeApp]:
    [err == nil && !appExists]. *)
Definition appRemoved (lifecycle : AppLifecycle) (appName : string) : State Sys bool :=
  fun s =>
    let '(appExists, err) := AppExists lifecycle appName (polls s) in
    (match err with None => negb appExists | Some _ => false end,
     {| trace := trace s; polls := S (polls s);
        placementErrorOccurred := placementErrorOccurred s |}).

Definition removeApp (factory : AppRunnerCommandFactory) (lifecycle : AppLifecycle)
    (args : list string) : State World unit :=
  let appName := cli.Get args 0 in
  if String.eqb appName EmptyString then
    lift (emit (ui_IncorrectUsage "App Name required"))
  else
    match RemoveApp lifecycle appName with
    | Some err => lift (emit (ui_Say ("Error Stopping App: " +:+ err)))
    | None =>
        lift (emit (ui_Say ("Removing " +:+ appName))) ;;
        ok <- pollUntilSuccess factory (appRemoved lifecycle appName) true ;;
        if ok then
          lift (emit (ui_Say (colors.Green ("Successfully Removed " +:+ appName +:+ "."))))
        else
          lift (emit (ui_Say (colors.Red ("Failed to remove " +:+ appName +:+ "."))))
    end.

(** ** Notions used to state the properties *)

(** The invariant of the data model: the monitored port is the sentinel 0
    or one of the exposed ports. *)
Definition monitoredIsExposed (portConfig : docker_app_runner.PortConfig) : Prop :=
  docker_app_runner.Monitored portConfig = 0 \/
  In (docker_app_runner.Monitored portConfig) (docker_app_runner.Exposed portConfig).

(** A port token that does not parse, or parses to more than 65535. *)
Definition invalidPortToken (p : string) : Prop :=
  match strconv.Atoi p with
  | None => True
  | Some intPort => 65535 < intPort
  end.

(** The segments that [parseRouteOverrides] does not skip. *)
Definition nonEmpty (s : string) : bool := negb (String.eqb s EmptyString).

(** A route segment with at least one colon and a numeric left part. *)
Definition wellFormedRoute (route : string) : Prop :=
  strings.contains ":" route = true /\
  strconv.Atoi (strings.before ":" route) <> None.

(** The override a well-formed segment stands for: the left part as a
    [uint16], and the text between the first colon and the next. *)
Definition routeOf (route : string) : docker_app_runner.RouteOverride :=
  {| docker_app_runner.HostnamePrefix := strings.before ":" (strings.after ":" route);
     docker_app_runner.Port :=
       match strconv.Atoi (strings.before ":" route) with
       | Some maybePort => uint16 maybePort
       | None => 0
       end |}.

(** The instants [t], [t + 1s], ... of [n] polls one second apart. *)
Fixpoint instants (t : Z) (n : nat) : list Z :=
  match n with
  | O => []
  | S n' => t :: instants (t + Second) n'
  end.

(** The number of seconds, whole or begun, in a duration:
    [ceil(timeout / 1s)]. *)
Definition secondsBegun (timeout : Z) : nat := Z.to_nat ((timeout + Second - 1) / Second).

(** The trace of [k] polls that found neither convergence nor a placement
    error: a query and a progress dot each. *)
Fixpoint waitingPolls (appName : string) (k : nat) : list Event :=
  match k with
  | O => []
  | S k' => runner_RunningAppInstancesInfo appName :: ui_Say "." :: waitingPolls appName k'
  end.

(** The end of a wait whose last poll reported a placement error. *)
Definition fatalPoll (appName : string) : list Event :=
  [runner_RunningAppInstancesInfo appName;
   ui_Say (colors.Red PlacementErrorMessage);
   ui_NewLine;
   exitHandler_Exit exit_codes.PlacementError].

(** What the URL loop of [createApp] says, up to its first piece without a
    colon. *)
Fixpoint routeUrlEvents (factory : AppRunnerCommandFactory) (routes : list string)
    : list Event :=
  match routes with
  | [] => []
  | route :: rest =>
      match strings.Split route ":" with
      | _ :: hostnamePrefix :: _ =>
          ui_Say (colors.Green (urlForApp factory hostnamePrefix))
          :: routeUrlEvents factory rest
      | _ => []
      end
  end.

(** What the URL step of [createApp] says: the URLs of the routes flag when
    there are overrides, the URL of the application name when there are
    none. *)
Definition urlEvents (factory : AppRunnerCommandFactory) (sub : Submitted) : list Event :=
  match sub_routeOverrides sub with
  | _ :: _ => routeUrlEvents factory (strings.Split (sub_routesFlag sub) ",")
  | [] => [ui_Say (colors.Green (urlForApp factory (sub_name sub)))]
  end.

(** The URL of one override, as it is said. *)
Definition sayUrl (factory : AppRunnerCommandFactory)
    (routeOverride : docker_app_runner.RouteOverride) : Event :=
  ui_Say (colors.Green (urlForApp factory (docker_app_runner.HostnamePrefix routeOverride))).

(** ** Concrete inputs *)

(** Nothing said or asked yet, at instant 0. *)
Definition emptySys : Sys := {| trace := []; polls := 0; placementErrorOccurred := false |}.
Definition epoch : World := {| now := 0; pollTimes := []; sys := emptySys |}.

(** An image that declares no working directory, command or port. *)
Definition noMetadata : docker_metadata_fetcher.ImageMetadata :=
  {| docker_metadata_fetcher.WorkingDir := EmptyString;
     docker_metadata_fetcher.StartCommand := [];
     docker_metadata_fetcher.Ports := zeroPortConfig |}.

(** A cluster that accepts every request and never reports a running
    instance nor a placement error. *)
Definition idleRunner : docker_app_runner.AppRunner :=
  {| docker_app_runner.CreateDockerApp := fun _ => None;
     docker_app_runner.ScaleApp := fun _ _ => None;
     docker_app_runner.RunningAppInstancesInfo := fun _ _ => (0, false) |}.

(** A cluster that reports a placement error on its third answer. *)
Definition fullRunner : docker_app_runner.AppRunner :=
  {| docker_app_runner.CreateDockerApp := fun _ => None;
     docker_app_runner.ScaleApp := fun _ _ => None;
     docker_app_runner.RunningAppInstancesInfo := fun _ n => (0, Nat.eqb n 2) |}.

(** A cluster on which one instance runs from the first poll on. *)
Definition readyRunner : docker_app_runner.AppRunner :=
  {| docker_app_runner.CreateDockerApp := fun _ => None;
     docker_app_runner.ScaleApp := fun _ _ => None;
     docker_app_runner.RunningAppInstancesInfo := fun _ _ => (1, false) |}.

(** A factory over [runner] with a timeout of [seconds] seconds. *)
Definition exampleFactory (runner : docker_app_runner.AppRunner) (seconds : Z)
    : AppRunnerCommandFactory :=
  {| appRunner := runner;
     dockerMetadataFetcher := fun _ => inl noMetadata;
     timeout := seconds * Second;
     domain := "example.com";
     env := ["NAME=inherited"; "PATH=/bin"] |}.

(** [ltc create app img -- /run], every flag at its default. *)
Definition exampleContext : cli.Context :=
  {| cli.working_dir := EmptyString;
     cli.env_flag := [];
     cli.instances := 1;
     cli.cpu_weight := 100;
     cli.memory_mb := 128;
     cli.disk_mb := 1024;
     cli.ports := EmptyString;
     cli.monitored_port := 0;
     cli.routes := EmptyString;
     cli.no_monitor := false;
     cli.run_as_root := false;
     cli.Args := ["app"; "img"; "--"; "/run"] |}.

(** What [createApp] hands over for [exampleContext]. *)
Definition exampleSubmitted : Submitted :=
  {| sub_name := "app"; sub_instances := 1;
     sub_routesFlag := EmptyString; sub_routeOverrides := [] |}.

(** [ltc create --cpu-weight=0 app img -- /run], and the same with one
    application argument after the start command. *)
Definition weightlessContext (appArgs : list string) : cli.Context :=
  {| cli.working_dir := EmptyString;
     cli.env_flag := [];
     cli.instances := 1;
     cli.cpu_weight := 0;
     cli.memory_mb := 128;
     cli.disk_mb := 1024;
     cli.ports := EmptyString;
     cli.monitored_port := 0;
     cli.routes := EmptyString;
     cli.no_monitor := false;
     cli.run_as_root := false;
     cli.Args := (["app"; "img"; "--"; "/run"] ++ appArgs)%list |}.


(** ** Further notions *)

(** The port a token stands for once [Atoi] has accepted it. *)
Definition portOf (p : string) : Z :=
  match strconv.Atoi p with
  | Some intPort => uint16 intPort
  | None => 0
  end.

(** A port token that the conversion loop accepts. *)
Definition validPortToken (p : string) : Prop :=
  exists intPort, strconv.Atoi p = Some intPort /\ intPort <= 65535.

(** The value [buildEnvironment] gives to a token: the text between the
    first ['='] and the next, or, when that is empty, what [grabVarFromEnv]
    finds for the token's name. *)
Definition envValue (factory : AppRunnerCommandFactory) (envVarPair : string) : string :=
  let value := strings.before "=" (strings.after "=" envVarPair) in
  if String.eqb value EmptyString
  then grabVarFromEnv factory (strings.before "=" envVarPair)
  else value.

(** The last token of [envVars] whose name is [name]. *)
Fixpoint lastNamed (name : string) (envVars : list string) : option string :=
  match envVars with
  | [] => None
  | envVarPair :: rest =>
      match lastNamed name rest with
      | Some later => Some later
      | None => if String.eqb (strings.before "=" envVarPair) name
                then Some envVarPair else None
      end
  end.

(** What the cluster answers to the poll numbered [j] about [appName]. *)
Definition answer (factory : AppRunnerCommandFactory) (appName : string) (j : nat)
    : Z * bool :=
  docker_app_runner.RunningAppInstancesInfo (appRunner factory) appName j.

(** The poll numbered [j] decides nothing: no placement error, and not the
    requested number of running instances. *)
Definition undecided (factory : AppRunnerCommandFactory) (appName : string)
    (instances : Z) (j : nat) : Prop :=
  snd (answer factory appName j) = false /\ fst (answer factory appName j) <> instances.

(** The poll numbered [j] reports the requested number of running instances
    and no placement error. *)
Definition converged (factory : AppRunnerCommandFactory) (appName : string)
    (instances : Z) (j : nat) : Prop :=
  snd (answer factory appName j) = false /\ fst (answer factory appName j) = instances.

(** The end of a wait whose last poll found the instances running. *)
Definition convergedPoll (appName : string) : list Event :=
  [runner_RunningAppInstancesInfo appName; ui_NewLine].

(** The end of a wait that ran out of time. *)
Definition timedOut (appName action : string) : list Event :=
  [ui_NewLine;
   ui_SayLine (colors.Red (appName +:+ " took too long to " +:+ action +:+ "."))].

(** Among the [n] polls numbered from [q] on, the first that decides is one
    of which [P] holds. *)
Definition firstToDecide (factory : AppRunnerCommandFactory) (appName : string)
    (instances : Z) (q n : nat) (P : nat -> Prop) : Prop :=
  exists k, (k < n)%nat /\
            (forall j, (j < k)%nat -> undecided factory appName instances (q + j)) /\
            P (q + k)%nat.

(** The world after one more event. *)
Definition after_event (w : World) (e : Event) : World :=
  with_sys w (snd (emit e (sys w))).

(** The world after more events. *)
Definition after_events (w : World) (said : list Event) : World :=
  with_sys w {| trace := (trace (sys w) ++ said)%list;
                polls := polls (sys w);
                placementErrorOccurred := placementErrorOccurred (sys w) |}.

(** What an action that does not use the clock returns and says when
    nothing has been said yet. *)
Definition result_of {A} (m : State Sys A) : A := fst (m emptySys).
Definition said_by {A} (m : State Sys A) : list Event := trace (snd (m emptySys)).

(** The state after more has been said. *)
Definition saying (s : Sys) (said : list Event) : Sys :=
  {| trace := (trace s ++ said)%list;
     polls := polls s;
     placementErrorOccurred := placementErrorOccurred s |}.

(** An action that only adds to what has been said, the same whatever was
    said before. *)
Definition framed {A} (m : State Sys A) : Prop :=
  forall s, m s = (result_of m, saying s (said_by m)).

(** The working directory [createApp] settles on: the flag, else the
    image's, else the root. *)
Definition resolvedWorkingDir (workingDirFlag : string)
    (imageMetadata : docker_metadata_fetcher.ImageMetadata) : string :=
  if String.eqb workingDirFlag EmptyString then
    if String.eqb (docker_metadata_fetcher.WorkingDir imageMetadata) EmptyString
    then "/" else docker_metadata_fetcher.WorkingDir imageMetadata
  else workingDirFlag.

(** The start command and its arguments: the fourth argument and those
    after it, else the image's command, else none. *)
Definition resolvedCommand (args : list string)
    (imageMetadata : docker_metadata_fetcher.ImageMetadata) : option (string * list string) :=
  if String.eqb (cli.Get args 3) EmptyString then
    match docker_metadata_fetcher.StartCommand imageMetadata with
    | [] => None
    | first :: others => Some (first, others)
    end
  else Some (cli.Get args 3, drop 4 args).

(** The request [createApp] builds from what it has resolved. *)
Definition requestOf (factory : AppRunnerCommandFactory) (context : cli.Context)
    (imageMetadata : docker_metadata_fetcher.ImageMetadata)
    (portConfig : docker_app_runner.PortConfig) (command : string * list string)
    (routeOverrides : docker_app_runner.RouteOverrides)
    : docker_app_runner.CreateDockerAppParams :=
  {| docker_app_runner.Name := cli.Get (cli.Args context) 0;
     docker_app_runner.DockerImagePath := cli.Get (cli.Args context) 1;
     docker_app_runner.StartCommand := fst command;
     docker_app_runner.AppArgs := snd command;
     docker_app_runner.EnvironmentVariables := buildEnvironment factory (cli.env_flag context);
     docker_app_runner.Privileged := cli.run_as_root context;
     docker_app_runner.Monitor := negb (cli.no_monitor context);
     docker_app_runner.Instances := cli.instances context;
     docker_app_runner.CPUWeight := uint (cli.cpu_weight context);
     docker_app_runner.MemoryMB := cli.memory_mb context;
     docker_app_runner.DiskMB := cli.disk_mb context;
     docker_app_runner.Ports := portConfig;
     docker_app_runner.WorkingDir :=
       resolvedWorkingDir (cli.working_dir context) imageMetadata;
     docker_app_runner.RouteOverrides_ := routeOverrides |}.

(** The calls that change nothing outside the terminal: what is said, and
    the reading of image metadata. *)
Definition quietEvent (e : Event) : bool :=
  match e with
  | ui_Say _ | ui_SayLine _ | ui_IncorrectUsage _ | ui_NewLine
  | fetcher_FetchMetadata _ => true
  | _ => false
  end.

(** [ltc create --routes=80 app img -- /run]: a route without a colon. *)
Definition malformedContext : cli.Context :=
  {| cli.working_dir := EmptyString;
     cli.env_flag := [];
     cli.instances := 1;
     cli.cpu_weight := 100;
     cli.memory_mb := 128;
     cli.disk_mb := 1024;
     cli.ports := EmptyString;
     cli.monitored_port := 0;
     cli.routes := "80";
     cli.no_monitor := false;
     cli.run_as_root := false;
     cli.Args := ["app"; "img"; "--"; "/run"] |}.

(** [ltc create --routes=80:web, app img -- /run]: a trailing comma. *)
Definition trailingCommaContext : cli.Context :=
  {| cli.working_dir := EmptyString;
     cli.env_flag := [];
     cli.instances := 1;
     cli.cpu_weight := 100;
     cli.memory_mb := 128;
     cli.disk_mb := 1024;
     cli.ports := EmptyString;
     cli.monitored_port := 0;
     cli.routes := "80:web,";
     cli.no_monitor := false;
     cli.run_as_root := false;
     cli.Args := ["app"; "img"; "--"; "/run"] |}.

(** The poll numbered [j] finds the app gone: no error, and it does not
    exist. *)
Definition gone (lifecycle : AppLifecycle) (appName : string) (j : nat) : Prop :=
  AppExists lifecycle appName j = (false, None).

(** A cluster on which the app is gone at the third poll, after an error
    and a poll that still finds it. *)
Definition slowRemoval : AppLifecycle :=
  {| UpdateAppRoutes := fun _ _ => None;
     RemoveApp := fun _ => None;
     AppExists := fun _ j =>
       match j with
       | O => (false, Some "unreachable")
       | S O => (true, None)
       | _ => (false, None)
       end |}.

(** A cluster that keeps failing to answer whether the app exists. *)
Definition unreachable : AppLifecycle :=
  {| UpdateAppRoutes := fun _ _ => None;
     RemoveApp := fun _ => None;
     AppExists := fun _ _ => (false, Some "unreachable") |}.
(** * Properties *)

(** ** Facts about the library functions *)

Section SplitFacts.

Variable sep : ascii.

Lemma Split_unfold (s : string) :
  strings.Split s sep =
  strings.before sep s ::
    (if strings.contains sep s then strings.Split (strings.after sep s) sep else []).
Proof.
  induction s as [|c s IH]; simpl; [reflexivity|].
  destruct (Ascii.eqb c sep); simpl; [reflexivity|].
  rewrite IH. reflexivity.
Qed.

Lemma Split_not_nil (s : string) : strings.Split s sep <> [].
Proof. rewrite Split_unfold. discriminate. Qed.

Lemma Split_at0 (s : string) : at0 (strings.Split s sep) = strings.before sep s.
Proof. rewrite Split_unfold. reflexivity. Qed.

Lemma Split_at1 (s : string) :
  at1 (strings.Split s sep) = strings.before sep (strings.after sep s).
Proof.
  rewrite Split_unfold. unfold at1. simpl.
  destruct (strings.contains sep s) eqn:Hc.
  - rewrite Split_unfold. reflexivity.
  - clear -Hc. induction s as [|c s IH]; simpl in *; [reflexivity|].
    destruct (Ascii.eqb c sep); [discriminate|]. auto.
Qed.

Lemma Split_several (s : string) :
  (1 <? length (strings.Split s sep))%nat = strings.contains sep s.
Proof.
  rewrite Split_unfold. destruct (strings.contains sep s); [|reflexivity].
  rewrite Split_unfold. reflexivity.
Qed.

Lemma Split_single (s : string) :
  strings.contains sep s = false -> strings.Split s sep = [s].
Proof.
  intros Hc. rewrite Split_unfold, Hc. f_equal.
  induction s as [|c s IH]; simpl in *; [reflexivity|].
  destruct (Ascii.eqb c sep); [discriminate|]. f_equal. auto.
Qed.

Lemma before_whole (s : string) :
  strings.contains sep s = false -> strings.before sep s = s.
Proof.
  intros Hc. pose proof (Split_single s Hc) as H.
  rewrite Split_unfold in H. congruence.
Qed.

Lemma contains_app (l r : string) :
  strings.contains sep (l +:+ r) = strings.contains sep l || strings.contains sep r.
Proof.
  induction l as [|c l IH]; simpl; [reflexivity|].
  rewrite IH. destruct (Ascii.eqb c sep); reflexivity.
Qed.

Lemma contains_sep (r : string) : strings.contains sep (String sep r) = true.
Proof. simpl. rewrite Ascii.eqb_refl. reflexivity. Qed.

Lemma before_app (l r : string) :
  strings.contains sep l = false -> strings.before sep (l +:+ String sep r) = l.
Proof.
  induction l as [|c l IH]; simpl.
  - rewrite Ascii.eqb_refl. reflexivity.
  - destruct (Ascii.eqb c sep); [discriminate|]. intros H. f_equal. auto.
Qed.

Lemma after_app (l r : string) :
  strings.contains sep l = false -> strings.after sep (l +:+ String sep r) = r.
Proof.
  induction l as [|c l IH]; simpl.
  - rewrite Ascii.eqb_refl. reflexivity.
  - destruct (Ascii.eqb c sep); [discriminate|]. auto.
Qed.

(** No piece of a split holds the separator. *)
Lemma Split_pieces (s piece : string) :
  In piece (strings.Split s sep) -> strings.contains sep piece = false.
Proof.
  revert piece. induction s as [|c s IH]; simpl; intros piece.
  - intros [<-|[]]. reflexivity.
  - destruct (Ascii.eqb c sep) eqn:Hc.
    + intros [<-|H]; [reflexivity|auto].
    + destruct (strings.Split s sep) as [|h t] eqn:Hs.
      * intros [<-|[]]. simpl. rewrite Hc. reflexivity.
      * intros [<-|H].
        -- simpl. rewrite Hc. apply IH. left. reflexivity.
        -- apply IH. right. exact H.
Qed.

End SplitFacts.

Section AtoiFacts.

Variable c : ascii.
Hypothesis c_no_digit : strconv.digit c = None.
Hypothesis c_no_minus : Ascii.eqb "-" c = false.
Hypothesis c_no_plus : Ascii.eqb "+" c = false.

Lemma digits_free (s : string) (acc n : Z) :
  strconv.digits acc s = Some n -> strings.contains c s = false.
Proof.
  revert acc. induction s as [|d s IH]; simpl; intros acc; [reflexivity|].
  destruct (strconv.digit d) eqn:Hd; [|discriminate].
  intros H. destruct (Ascii.eqb d c) eqn:Hdc.
  - apply Ascii.eqb_eq in Hdc. congruence.
  - simpl. eauto.
Qed.

(** A string that [Atoi] accepts is made of a sign and digits only. *)
Lemma Atoi_free (s : string) (n : Z) :
  strconv.Atoi s = Some n -> strings.contains c s = false.
Proof.
  destruct s as [|d s]; [discriminate|]. unfold strconv.Atoi.
  destruct (Ascii.eqb d "-") eqn:Hm; [|destruct (Ascii.eqb d "+") eqn:Hp].
  - apply Ascii.eqb_eq in Hm. subst d.
    destruct s as [|e s]; [discriminate|].
    destruct (strconv.digits 0 (String e s)) eqn:Hd; [|discriminate].
    intros _. change (strings.contains c (String "-" (String e s)))
      with (Ascii.eqb "-" c || strings.contains c (String e s)).
    rewrite c_no_minus. apply (digits_free _ _ _ Hd).
  - apply Ascii.eqb_eq in Hp. subst d.
    destruct s as [|e s]; [discriminate|].
    destruct (strconv.digits 0 (String e s)) eqn:Hd; [|discriminate].
    intros _. change (strings.contains c (String "+" (String e s)))
      with (Ascii.eqb "+" c || strings.contains c (String e s)).
    rewrite c_no_plus. apply (digits_free _ _ _ Hd).
  - destruct (strconv.digits 0 (String d s)) eqn:Hd; [|discriminate].
    intros _. apply (digits_free _ _ _ Hd).
Qed.

End AtoiFacts.

Lemma Atoi_no_colon (s : string) (n : Z) :
  strconv.Atoi s = Some n -> strings.contains ":" s = false.
Proof. apply Atoi_free; reflexivity. Qed.

Lemma Atoi_no_comma (s : string) (n : Z) :
  strconv.Atoi s = Some n -> strings.contains "," s = false.
Proof. apply Atoi_free; reflexivity. Qed.

Lemma Atoi_not_empty (s : string) (n : Z) : strconv.Atoi s = Some n -> s <> EmptyString.
Proof. intros H ->. discriminate. Qed.

(** ** Port configuration *)

Lemma convertPorts_Some (portStrings : list string) (acc convertedPorts : list Z) :
  convertPorts portStrings acc = Some convertedPorts ->
  exists values,
    convertedPorts = (acc ++ values)%list /\
    length values = length portStrings /\
    forall p intPort, In p portStrings -> strconv.Atoi p = Some intPort ->
                      In (uint16 intPort) values.
Proof.
  revert acc. induction portStrings as [|p rest IH]; simpl; intros acc H.
  - exists []. inversion H. rewrite app_nil_r. repeat split. intros ? ? [].
  - destruct (strconv.Atoi p) as [intPort|] eqn:Hp; [|discriminate].
    destruct (65535 <? intPort); [discriminate|].
    apply IH in H as (values & -> & Hlen & Hin).
    exists (uint16 intPort :: values). rewrite <- app_assoc. simpl.
    repeat split; [congruence|].
    intros q n [<-|Hq] Hn.
    + left. congruence.
    + right. eauto.
Qed.

Lemma convertPorts_invalid (portStrings : list string) (acc : list Z) (p : string) :
  In p portStrings -> invalidPortToken p -> convertPorts portStrings acc = None.
Proof.
  revert acc. induction portStrings as [|q rest IH]; simpl; intros acc; [intros []|].
  intros [->|Hin] Hbad.
  - unfold invalidPortToken in Hbad. destruct (strconv.Atoi p); [|reflexivity].
    apply Z.ltb_lt in Hbad. rewrite Hbad. reflexivity.
  - destruct (strconv.Atoi q); [|reflexivity].
    destruct (65535 <? z); [reflexivity|]. auto.
Qed.

Lemma sort_Strings_In (a : list string) (p : string) :
  In p (sort.Strings a) <-> In p a.
Proof.
  unfold sort.Strings.
  pose proof (merge_sort_Permutation String.leb a) as Hperm.
  split; intros H.
  - eapply Permutation_in; eauto.
  - eapply Permutation_in; [symmetry|]; eauto.
Qed.

Lemma sort_Strings_length (a : list string) : length (sort.Strings a) = length a.
Proof.
  unfold sort.Strings. apply Permutation_length, merge_sort_Permutation.
Qed.

(** The model of [sort.Strings] does sort: its result is in ascending
    byte-wise order. *)
Lemma sort_Strings_sorted (a : list string) : Sorted String.leb (sort.Strings a).
Proof.
  assert (Htotal : Total (fun x y : string => Is_true (String.leb x y))).
  { intros x y. destruct (String.leb_total x y) as [H|H]; rewrite H; [left|right]; exact I. }
  unfold sort.Strings. apply (Sorted_merge_sort (fun x y : string => Is_true (String.leb x y))).
Qed.

Example sort_Strings_lexical : sort.Strings ["80"; "9"; "100"] = ["100"; "80"; "9"].
Proof. reflexivity. Qed.

(** With a ports flag, none of the three defaults applies. *)
Lemma getPortConfigFromArgs_flag (factory : AppRunnerCommandFactory) (portsFlag : string)
    (monitoredPortFlag : Z) (noMonitorFlag : bool)
    (imageMetadata : docker_metadata_fetcher.ImageMetadata) (s : Sys) :
  portsFlag <> EmptyString ->
  getPortConfigFromArgs factory portsFlag monitoredPortFlag noMonitorFlag imageMetadata s =
  (let portStrings := strings.Split portsFlag "," in
   if (1 <? length portStrings)%nat && (monitoredPortFlag =? 0) && negb noMonitorFlag then
     (zeroPortConfig, Some MustSetMonitoredPortErrorMessage)
   else
     let portStrings := sort.Strings portStrings in
     match convertPorts portStrings [] with
     | None => (zeroPortConfig, Some InvalidPortErrorMessage)
     | Some convertedPorts =>
         ({| docker_app_runner.Monitored :=
               if (1 <? length portStrings)%nat then uint16 monitoredPortFlag
               else nth 0 convertedPorts 0;
             docker_app_runner.Exposed := convertedPorts |}, None)
     end, s).
Proof.
  intros Hne. unfold getPortConfigFromArgs.
  apply String.eqb_neq in Hne. rewrite Hne. simpl.
  destruct ((1 <? length (strings.Split portsFlag ","))%nat && (monitoredPortFlag =? 0)
            && negb noMonitorFlag); [reflexivity|].
  destruct (convertPorts (sort.Strings (strings.Split portsFlag ",")) []); reflexivity.
Qed.

Lemma Split_several_not_empty (s : string) (sep : ascii) :
  (2 <= length (strings.Split s sep))%nat -> s <> EmptyString.
Proof. intros H ->. simpl in H. lia. Qed.

(** C6: whenever the ports string splits on commas into two or more tokens,
    the monitored-port flag is 0 and monitoring is not disabled,
    [getPortConfigFromArgs] returns the zero PortConfig together with
    exactly [MustSetMonitoredPortErrorMessage], and says nothing. *)
Theorem getPortConfigFromArgs_must_set_monitored_port
    (factory : AppRunnerCommandFactory) (portsFlag : string)
    (imageMetadata : docker_metadata_fetcher.ImageMetadata) (s : Sys) :
  (2 <= length (strings.Split portsFlag ","))%nat ->
  getPortConfigFromArgs factory portsFlag 0 false imageMetadata s =
  ((zeroPortConfig, Some MustSetMonitoredPortErrorMessage), s).
Proof.
  intros Hlen.
  rewrite getPortConfigFromArgs_flag by (eapply Split_several_not_empty; eauto).
  cbv zeta. apply Nat.ltb_lt in Hlen. rewrite Hlen. reflexivity.
Qed.

Lemma getPortConfigFromArgs_must_set_monitored_port_witness :
  (2 <= length (strings.Split "80,90" ","))%nat /\
  getPortConfigFromArgs (exampleFactory idleRunner 3) "80,90" 0 false noMetadata emptySys =
  ((zeroPortConfig, Some MustSetMonitoredPortErrorMessage), emptySys).
Proof.
  split; [simpl; lia|].
  apply getPortConfigFromArgs_must_set_monitored_port. simpl; lia.
Defined.

(** C2, as the code has it: when the ports string is not empty, the
    monitored-port guard does not fire (a single token, or a monitored-port
    flag, or monitoring disabled) and some comma-separated token does not
    parse as an integer or parses to more than 65535, the result is the
    zero PortConfig with exactly [InvalidPortErrorMessage], and nothing is
    said. *)
Theorem getPortConfigFromArgs_invalid_port
    (factory : AppRunnerCommandFactory) (portsFlag : string) (monitoredPortFlag : Z)
    (noMonitorFlag : bool) (imageMetadata : docker_metadata_fetcher.ImageMetadata)
    (s : Sys) (p : string) :
  portsFlag <> EmptyString ->
  ((length (strings.Split portsFlag ",") <= 1)%nat \/ monitoredPortFlag <> 0
   \/ noMonitorFlag = true) ->
  In p (strings.Split portsFlag ",") ->
  invalidPortToken p ->
  getPortConfigFromArgs factory portsFlag monitoredPortFlag noMonitorFlag imageMetadata s =
  ((zeroPortConfig, Some InvalidPortErrorMessage), s).
Proof.
  intros Hne Hguard Hin Hbad.
  rewrite getPortConfigFromArgs_flag by exact Hne. cbv zeta.
  assert (Hg : (1 <? length (strings.Split portsFlag ","))%nat && (monitoredPortFlag =? 0)
               && negb noMonitorFlag = false).
  { destruct Hguard as [Hlen|[Hmp|Hnm]].
    - apply Nat.ltb_ge in Hlen. rewrite Hlen. reflexivity.
    - apply Z.eqb_neq in Hmp. rewrite Hmp. apply andb_false_iff. left.
      apply andb_false_r.
    - rewrite Hnm. apply andb_false_r. }
  rewrite Hg.
  rewrite (convertPorts_invalid _ [] p); [reflexivity| |exact Hbad].
  apply sort_Strings_In. exact Hin.
Qed.

Lemma getPortConfigFromArgs_invalid_port_witness :
  getPortConfigFromArgs (exampleFactory idleRunner 3) "80,70000,x" 80 false
    noMetadata emptySys =
  ((zeroPortConfig, Some InvalidPortErrorMessage), emptySys).
Proof.
  apply (getPortConfigFromArgs_invalid_port _ "80,70000,x" 80 false _ _ "70000").
  - discriminate.
  - right. left. lia.
  - simpl. right. left. reflexivity.
  - vm_compute. reflexivity.
Defined.

(** C2 as stated fails: the token ["x"] of ["80,x"] does not parse, yet with
    no monitored-port flag and monitoring enabled the error returned is
    [MustSetMonitoredPortErrorMessage], not [InvalidPortErrorMessage]. *)
Lemma getPortConfigFromArgs_invalid_port_shadowed :
  In "x" (strings.Split "80,x" ",") /\
  strconv.Atoi "x" = None /\
  fst (getPortConfigFromArgs (exampleFactory idleRunner 3) "80,x" 0 false
         noMetadata emptySys)
  = (zeroPortConfig, Some MustSetMonitoredPortErrorMessage) /\
  fst (getPortConfigFromArgs (exampleFactory idleRunner 3) "80,x" 0 false
         noMetadata emptySys)
  <> (zeroPortConfig, Some InvalidPortErrorMessage).
Proof.
  repeat split; [simpl; auto|discriminate].
Qed.

(** A negative token is outside 0-65535 and is nevertheless converted:
    the loop only rejects values above 65535. *)
Example getPortConfigFromArgs_negative_port :
  fst (getPortConfigFromArgs (exampleFactory idleRunner 3) "-1" 0 false
         noMetadata emptySys)
  = ({| docker_app_runner.Monitored := 65535; docker_app_runner.Exposed := [65535] |},
     None).
Proof. reflexivity. Qed.

(** C1, as the code has it: a PortConfig returned without error has its
    monitored port at 0 or among its exposed ports, provided that the
    metadata's own PortConfig does when it is taken over, and that, when two
    or more ports are listed, the monitored-port flag (as a [uint16]) is 0
    or one of the listed ports. *)
Theorem getPortConfigFromArgs_monitored_exposed
    (factory : AppRunnerCommandFactory) (portsFlag : string) (monitoredPortFlag : Z)
    (noMonitorFlag : bool) (imageMetadata : docker_metadata_fetcher.ImageMetadata)
    (s s' : Sys) (portConfig : docker_app_runner.PortConfig) :
  getPortConfigFromArgs factory portsFlag monitoredPortFlag noMonitorFlag imageMetadata s
  = ((portConfig, None), s') ->
  (portsFlag = EmptyString ->
   docker_app_runner.IsEmpty (docker_metadata_fetcher.Ports imageMetadata) = false ->
   monitoredIsExposed (docker_metadata_fetcher.Ports imageMetadata)) ->
  ((2 <= length (strings.Split portsFlag ","))%nat ->
   uint16 monitoredPortFlag = 0 \/
   exists p intPort, In p (strings.Split portsFlag ",") /\
                     strconv.Atoi p = Some intPort /\
                     uint16 intPort = uint16 monitoredPortFlag) ->
  monitoredIsExposed portConfig.
Proof.
  intros Hrun Hmeta Hflag.
  destruct (String.eqb portsFlag EmptyString) eqn:Hp.
  - (* no ports flag: metadata, or a default *)
    apply String.eqb_eq in Hp. subst portsFlag.
    unfold getPortConfigFromArgs in Hrun. simpl in Hrun.
    destruct (docker_app_runner.IsEmpty (docker_metadata_fetcher.Ports imageMetadata))
      eqn:He; simpl in Hrun.
    + destruct noMonitorFlag; simpl in Hrun; inversion Hrun; subst.
      * left. reflexivity.
      * right. simpl. auto.
    + inversion Hrun; subst. auto.
  - apply String.eqb_neq in Hp.
    rewrite getPortConfigFromArgs_flag in Hrun by exact Hp. cbv zeta in Hrun.
    destruct ((1 <? length (strings.Split portsFlag ","))%nat && (monitoredPortFlag =? 0)
              && negb noMonitorFlag); [inversion Hrun|].
    destruct (convertPorts (sort.Strings (strings.Split portsFlag ",")) [])
      as [convertedPorts|] eqn:Hc; [|inversion Hrun].
    inversion Hrun; subst; clear Hrun.
    apply convertPorts_Some in Hc as (values & -> & Hlen & Hin).
    rewrite sort_Strings_length in *. simpl app. unfold monitoredIsExposed. simpl.
    destruct (1 <? length (strings.Split portsFlag ","))%nat eqn:Hn.
    + apply Nat.ltb_lt in Hn. destruct (Hflag Hn) as [H0|(p & intPort & Hp1 & Hp2 & Hp3)].
      * left. exact H0.
      * right. rewrite <- Hp3. apply (Hin p); [|exact Hp2].
        apply sort_Strings_In. exact Hp1.
    + right. destruct values as [|v values].
      * pose proof (Split_not_nil "," portsFlag).
        destruct (strings.Split portsFlag ","); [congruence|discriminate].
      * left. reflexivity.
Qed.

Lemma getPortConfigFromArgs_monitored_exposed_witness :
  monitoredIsExposed
    {| docker_app_runner.Monitored := 90; docker_app_runner.Exposed := [80; 90] |}.
Proof.
  apply (getPortConfigFromArgs_monitored_exposed (exampleFactory idleRunner 3)
           "90,80" 90 false noMetadata emptySys emptySys).
  - reflexivity.
  - discriminate.
  - intros _. right. exists "90", 90. simpl. auto.
Defined.

(** C1 as stated fails: two ports are listed and the monitored-port flag
    names a third; the PortConfig is returned without error and its
    monitored port is neither 0 nor exposed. *)
Lemma getPortConfigFromArgs_monitored_not_exposed :
  getPortConfigFromArgs (exampleFactory idleRunner 3) "80,90" 100 false noMetadata emptySys
  = (({| docker_app_runner.Monitored := 100; docker_app_runner.Exposed := [80; 90] |},
      None), emptySys) /\
  ~ monitoredIsExposed
      {| docker_app_runner.Monitored := 100; docker_app_runner.Exposed := [80; 90] |}.
Proof.
  split; [reflexivity|].
  unfold monitoredIsExposed. simpl. intros [H|[H|[H|[]]]]; discriminate.
Qed.

(** ** Route overrides *)

Lemma Split_few (s : string) (sep : ascii) :
  (length (strings.Split s sep) <? 2)%nat = negb (strings.contains sep s).
Proof.
  rewrite <- Split_several.
  destruct (Nat.ltb_spec (length (strings.Split s sep)) 2),
           (Nat.ltb_spec 1 (length (strings.Split s sep))); simpl; lia.
Qed.

(** One turn of the loop on a well-formed segment. *)
Lemma parseRouteOverrides_range_step (route : string) (rest : list string)
    (routeOverrides : docker_app_runner.RouteOverrides) :
  route <> EmptyString -> wellFormedRoute route ->
  parseRouteOverrides_range (route :: rest) routeOverrides =
  parseRouteOverrides_range rest (routeOverrides ++ [routeOf route])%list.
Proof.
  intros Hne [Hcolon Hleft]. simpl.
  apply String.eqb_neq in Hne. rewrite Hne.
  rewrite Split_at0, Split_at1, Split_few, Hcolon. unfold routeOf.
  destruct (strconv.Atoi (strings.before ":" route)); [reflexivity|congruence].
Qed.

Lemma parseRouteOverrides_range_wellFormed (segments : list string)
    (routeOverrides : docker_app_runner.RouteOverrides) :
  (forall route, In route segments -> route <> EmptyString -> wellFormedRoute route) ->
  parseRouteOverrides_range segments routeOverrides =
  ((routeOverrides ++ map routeOf (List.filter nonEmpty segments))%list, None).
Proof.
  revert routeOverrides.
  induction segments as [|route rest IH]; intros routeOverrides Hwf.
  - simpl. rewrite app_nil_r. reflexivity.
  - destruct (String.eqb route EmptyString) eqn:He.
    + simpl. unfold nonEmpty at 1. rewrite He. simpl.
      apply IH. intros r Hr. apply Hwf. right. exact Hr.
    + assert (Hne : route <> EmptyString) by (apply String.eqb_neq; exact He).
      rewrite parseRouteOverrides_range_step; [|exact Hne|apply Hwf; [left; reflexivity|exact Hne]].
      rewrite IH by (intros r Hr; apply Hwf; right; exact Hr).
      simpl. unfold nonEmpty at 2. rewrite He. simpl.
      rewrite <- app_assoc. reflexivity.
Qed.

(** C8, as the code has it: when every non-empty comma-separated segment
    has a colon and a numeric left part, [parseRouteOverrides] returns, in
    segment order and keeping duplicates, one override per non-empty
    segment; its port is the left part as a [uint16] and its hostname
    prefix is the text between the first colon and the next one, which is
    the whole remainder when the segment has a single colon.  An empty
    input yields the nil list. *)
Theorem parseRouteOverrides_wellFormed (routes : string) :
  (forall route, In route (strings.Split routes ",") -> route <> EmptyString ->
                 wellFormedRoute route) ->
  parseRouteOverrides routes =
    (map routeOf (List.filter nonEmpty (strings.Split routes ",")), None) /\
  (forall route, strings.contains ":" (strings.after ":" route) = false ->
                 docker_app_runner.HostnamePrefix (routeOf route) = strings.after ":" route) /\
  parseRouteOverrides EmptyString = ([], None).
Proof.
  intros Hwf. repeat split.
  - unfold parseRouteOverrides. rewrite parseRouteOverrides_range_wellFormed by exact Hwf.
    reflexivity.
  - intros route Hone. simpl. apply before_whole. exact Hone.
Qed.

Lemma parseRouteOverrides_wellFormed_witness :
  parseRouteOverrides "80:web,,8080:api,80:web" =
    ([{| docker_app_runner.HostnamePrefix := "web"; docker_app_runner.Port := 80 |};
      {| docker_app_runner.HostnamePrefix := "api"; docker_app_runner.Port := 8080 |};
      {| docker_app_runner.HostnamePrefix := "web"; docker_app_runner.Port := 80 |}],
     None).
Proof.
  refine (proj1 (parseRouteOverrides_wellFormed "80:web,,8080:api,80:web" _)).
  intros route Hin Hne. simpl in Hin.
  destruct Hin as [<-|[<-|[<-|[<-|[]]]]]; try congruence;
    (split; [reflexivity|discriminate]).
Defined.

(** C8 as stated fails: the segment ["80:a:b"] is well formed and the text
    after its first colon is ["a:b"], but the override's hostname prefix
    is ["a"]. *)
Lemma parseRouteOverrides_prefix_cut :
  wellFormedRoute "80:a:b" /\
  strings.after ":" "80:a:b" = "a:b" /\
  parseRouteOverrides "80:a:b" =
    ([{| docker_app_runner.HostnamePrefix := "a"; docker_app_runner.Port := 80 |}], None) /\
  parseRouteOverrides "80:a:b" <>
    ([{| docker_app_runner.HostnamePrefix := "a:b"; docker_app_runner.Port := 80 |}], None).
Proof.
  repeat split; discriminate.
Qed.

(** C10: a segment whose left part [Atoi] accepts, whatever its value, is
    never refused: the loop appends an override whose port is the value
    modulo 2^16 and goes on; in particular a route string made of that one
    segment parses without error, and ["70000:web"] yields port 4464. *)
Theorem parseRouteOverrides_no_range_check (left rest : string) (maybePort : Z)
    (later : list string) (routeOverrides : docker_app_runner.RouteOverrides) :
  strconv.Atoi left = Some maybePort ->
  parseRouteOverrides_range ((left +:+ ":" +:+ rest) :: later) routeOverrides =
    parseRouteOverrides_range later
      (routeOverrides ++
       [{| docker_app_runner.HostnamePrefix := strings.before ":" rest;
           docker_app_runner.Port := maybePort mod 2 ^ 16 |}])%list /\
  (strings.contains "," rest = false ->
   parseRouteOverrides (left +:+ ":" +:+ rest) =
     ([{| docker_app_runner.HostnamePrefix := strings.before ":" rest;
          docker_app_runner.Port := maybePort mod 2 ^ 16 |}], None)) /\
  parseRouteOverrides "70000:web" =
    ([{| docker_app_runner.HostnamePrefix := "web"; docker_app_runner.Port := 4464 |}], None).
Proof.
  intros Hleft.
  change (left +:+ ":" +:+ rest) with (left +:+ String ":" rest).
  pose proof (Atoi_no_colon _ _ Hleft) as Hcolon.
  assert (Hne : left +:+ String ":" rest <> EmptyString)
    by (destruct left; discriminate).
  assert (Hwf : wellFormedRoute (left +:+ String ":" rest)).
  { split.
    - rewrite contains_app, contains_sep. apply orb_true_r.
    - rewrite before_app by exact Hcolon. congruence. }
  assert (Hroute : routeOf (left +:+ String ":" rest) =
                   {| docker_app_runner.HostnamePrefix := strings.before ":" rest;
                      docker_app_runner.Port := maybePort mod 2 ^ 16 |}).
  { unfold routeOf. rewrite before_app, after_app by exact Hcolon.
    rewrite Hleft. reflexivity. }
  split; [|split].
  - rewrite parseRouteOverrides_range_step by assumption. rewrite Hroute. reflexivity.
  - intros Hcomma. unfold parseRouteOverrides.
    rewrite Split_single.
    + rewrite parseRouteOverrides_range_step by assumption. rewrite Hroute. reflexivity.
    + rewrite contains_app. rewrite (Atoi_no_comma _ _ Hleft). simpl. exact Hcomma.
  - reflexivity.
Qed.

Lemma parseRouteOverrides_no_range_check_witness :
  parseRouteOverrides ("-1" +:+ ":" +:+ "web") =
    ([{| docker_app_runner.HostnamePrefix := "web"; docker_app_runner.Port := 65535 |}],
     None).
Proof.
  refine (proj1 (proj2 (parseRouteOverrides_no_range_check "-1" "web" (-1) [] []
                          _)) _); reflexivity.
Defined.

(** ** Environment *)

Lemma after_none (sep : ascii) (s : string) :
  strings.contains sep s = false -> strings.after sep s = EmptyString.
Proof.
  induction s as [|c s IH]; simpl; [reflexivity|].
  destruct (Ascii.eqb c sep); [discriminate|]. exact IH.
Qed.

(** The name is the text before the first ['='], the value the text between
    the first ['='] and the next. *)
Lemma parseEnvVarPair_parts (envVarPair : string) :
  parseEnvVarPair envVarPair =
  (strings.before "=" envVarPair, strings.before "=" (strings.after "=" envVarPair)).
Proof.
  unfold parseEnvVarPair. rewrite Split_several, Split_at0, Split_at1.
  destruct (strings.contains "=" envVarPair) eqn:Hc; [reflexivity|].
  rewrite after_none by exact Hc. reflexivity.
Qed.

Lemma parseEnvVarPair_pair (name value : string) :
  strings.contains "=" name = false -> strings.contains "=" value = false ->
  parseEnvVarPair (name +:+ "=" +:+ value) = (name, value).
Proof.
  intros Hn Hv. rewrite parseEnvVarPair_parts.
  change (name +:+ "=" +:+ value) with (name +:+ String "=" value).
  rewrite before_app, after_app by exact Hn.
  rewrite before_whole by exact Hv. reflexivity.
Qed.

Lemma buildEnvironment_range_app (factory : AppRunnerCommandFactory)
    (earlier later : list string) (environment : gmap string string) :
  buildEnvironment_range factory (earlier ++ later)%list environment =
  buildEnvironment_range factory later (buildEnvironment_range factory earlier environment).
Proof.
  revert environment. induction earlier as [|envVarPair rest IH]; intros environment.
  - reflexivity.
  - simpl. destruct (parseEnvVarPair envVarPair) as [name value]. apply IH.
Qed.

(** Tokens with another name leave the entry alone. *)
Lemma buildEnvironment_range_other (factory : AppRunnerCommandFactory)
    (envVars : list string) (environment : gmap string string) (name : string) :
  (forall envVarPair, In envVarPair envVars -> strings.before "=" envVarPair <> name) ->
  buildEnvironment_range factory envVars environment !! name = environment !! name.
Proof.
  revert environment. induction envVars as [|envVarPair rest IH]; intros environment Hother.
  - reflexivity.
  - simpl. rewrite parseEnvVarPair_parts.
    rewrite IH by (intros p Hp; apply Hother; right; exact Hp).
    apply lookup_insert_ne. apply Hother. left. reflexivity.
Qed.

(** C7, as the code has it: a token NAME=VALUE whose VALUE holds no further
    ['='] maps NAME to VALUE verbatim when VALUE is not empty; when VALUE is
    empty the token is treated like the bare NAME and NAME is mapped to what
    [grabVarFromEnv] finds in the inherited environment.  Later tokens with
    the same name would overwrite the entry. *)
Theorem buildEnvironment_pair (factory : AppRunnerCommandFactory)
    (NAME VALUE : string) (earlier later : list string) :
  strings.contains "=" NAME = false ->
  strings.contains "=" VALUE = false ->
  (forall envVarPair, In envVarPair later -> strings.before "=" envVarPair <> NAME) ->
  buildEnvironment factory (earlier ++ (NAME +:+ "=" +:+ VALUE) :: later)%list !! NAME =
  Some (if String.eqb VALUE EmptyString then grabVarFromEnv factory NAME else VALUE).
Proof.
  intros Hname Hvalue Hlater. unfold buildEnvironment.
  rewrite buildEnvironment_range_app. simpl.
  rewrite parseEnvVarPair_pair by assumption.
  rewrite buildEnvironment_range_other by exact Hlater.
  apply lookup_insert_eq.
Qed.

Lemma buildEnvironment_pair_witness :
  buildEnvironment (exampleFactory idleRunner 3) ["FOO=BAR"; "BAZ=WIBBLE"; "FOO=QUX"; "X=1"]
    !! "FOO" = Some "QUX".
Proof.
  apply (buildEnvironment_pair (exampleFactory idleRunner 3) "FOO" "QUX"
           ["FOO=BAR"; "BAZ=WIBBLE"] ["X=1"]).
  - reflexivity.
  - reflexivity.
  - intros p [<-|[]]. discriminate.
Defined.

(** C7 as stated fails: with ["NAME=inherited"] in the process environment,
    the token ["NAME="] maps NAME to ["inherited"], not to the empty
    string. *)
Lemma buildEnvironment_empty_value_inherited :
  buildEnvironment (exampleFactory idleRunner 3) ["NAME="] !! "NAME" = Some "inherited" /\
  buildEnvironment (exampleFactory idleRunner 3) ["NAME="] !! "NAME" <> Some EmptyString.
Proof.
  assert (H : buildEnvironment (exampleFactory idleRunner 3) ["NAME="] !! "NAME"
              = Some "inherited") by (vm_compute; reflexivity).
  split; [exact H|]. rewrite H. discriminate.
Qed.

(** A value with a second ['='] is cut there. *)
Example buildEnvironment_value_cut :
  buildEnvironment (exampleFactory idleRunner 3) ["A=b=c"] !! "A" = Some "b".
Proof. vm_compute. reflexivity. Qed.

(** ** The convergence poller *)

Lemma Second_pos : 0 < Second.
Proof. reflexivity. Qed.

Lemma sleepsLeft_expired (deadline t : Z) : deadline <= t -> sleepsLeft deadline t = O.
Proof.
  intros H. unfold sleepsLeft.
  assert ((deadline - t + Second - 1) / Second < 1).
  { apply Z.div_lt_upper_bound; [apply Second_pos|]. lia. }
  lia.
Qed.

Lemma sleepsLeft_step (deadline t : Z) :
  t < deadline -> sleepsLeft deadline t = S (sleepsLeft deadline (t + Second)).
Proof.
  intros H. unfold sleepsLeft.
  replace (deadline - (t + Second) + Second - 1) with (deadline - t - 1) by lia.
  replace (deadline - t + Second - 1) with (deadline - t - 1 + 1 * Second) by lia.
  rewrite Z_div_plus by (pose proof Second_pos; lia).
  assert (0 <= (deadline - t - 1) / Second)
    by (apply Z.div_pos; [lia|apply Second_pos]).
  lia.
Qed.

Lemma sleepsLeft_secondsBegun (t timeout : Z) :
  sleepsLeft (t + timeout) t = secondsBegun timeout.
Proof. unfold sleepsLeft, secondsBegun. f_equal. f_equal. lia. Qed.

(** [ceil] against [floor]: they differ by one except on whole seconds. *)
Lemma secondsBegun_floor (timeout : Z) :
  0 < timeout ->
  Z.of_nat (secondsBegun timeout) =
  if timeout mod Second =? 0 then timeout / Second else timeout / Second + 1.
Proof.
  intros Hpos. unfold secondsBegun.
  pose proof Second_pos as HS.
  pose proof (Z.div_mod timeout Second ltac:(lia)) as Hdm.
  pose proof (Z.mod_pos_bound timeout Second HS) as Hr.
  assert (Hq : 0 <= timeout / Second) by (apply Z.div_pos; lia).
  destruct (timeout mod Second =? 0) eqn:Hz.
  - apply Z.eqb_eq in Hz.
    rewrite <- (Z.div_unique (timeout + Second - 1) Second (timeout / Second) (Second - 1));
      lia.
  - apply Z.eqb_neq in Hz.
    rewrite <- (Z.div_unique (timeout + Second - 1) Second (timeout / Second + 1)
                  (timeout mod Second - 1)); lia.
Qed.

Lemma instants_range (deadline : Z) (n : nat) (t0 t : Z) :
  sleepsLeft deadline t0 = n -> In t (instants t0 n) -> t0 <= t < deadline.
Proof.
  revert t0. induction n as [|n IH]; simpl; intros t0 Hn; [intros []|].
  assert (Hlt : t0 < deadline).
  { destruct (Z_lt_dec t0 deadline) as [|Hge]; [assumption|].
    rewrite sleepsLeft_expired in Hn by lia. discriminate. }
  intros [<-|Hin]; [lia|].
  rewrite sleepsLeft_step in Hn by exact Hlt. injection Hn as Hn.
  pose proof Second_pos. specialize (IH _ Hn Hin). lia.
Qed.

Section PollLoop.

Variable factory : AppRunnerCommandFactory.
Variable pollingFunc : State Sys bool.
Variable outputProgress : bool.
Variable startingTime : Z.

Lemma pollLoop_expired (w : World) :
  startingTime + timeout factory <= now w ->
  pollLoop factory pollingFunc outputProgress startingTime w =
  (false, with_sys w (snd (emit ui_NewLine (sys w)))).
Proof.
  intros H. rewrite pollLoop_equation_1.
  destruct (Z_lt_dec (now w) (startingTime + timeout factory)); [lia|].
  reflexivity.
Qed.

Lemma pollLoop_success (w : World) (s : Sys) :
  now w < startingTime + timeout factory ->
  pollingFunc (sys w) = (true, s) ->
  pollLoop factory pollingFunc outputProgress startingTime w =
  (true, with_sys (polled w) (snd (emit ui_NewLine s))).
Proof.
  intros H Hp. rewrite pollLoop_equation_1.
  destruct (Z_lt_dec (now w) (startingTime + timeout factory)); [|lia].
  cbn. rewrite Hp. reflexivity.
Qed.

Lemma pollLoop_retry (w : World) (s : Sys) :
  now w < startingTime + timeout factory ->
  pollingFunc (sys w) = (false, s) ->
  pollLoop factory pollingFunc outputProgress startingTime w =
  pollLoop factory pollingFunc outputProgress startingTime
    {| now := now w + Second;
       pollTimes := (pollTimes w ++ [now w])%list;
       sys := if outputProgress then snd (emit (ui_Say ".") s) else s |}.
Proof.
  intros H Hp. rewrite pollLoop_equation_1.
  destruct (Z_lt_dec (now w) (startingTime + timeout factory)); [|lia].
  cbn. rewrite Hp. cbn. destruct outputProgress; reflexivity.
Qed.

(** A polling function that never succeeds is invoked once per second
    until the deadline. *)
Lemma pollLoop_never (n : nat) (w : World) :
  (forall s, fst (pollingFunc s) = false) ->
  sleepsLeft (startingTime + timeout factory) (now w) = n ->
  fst (pollLoop factory pollingFunc outputProgress startingTime w) = false /\
  pollTimes (snd (pollLoop factory pollingFunc outputProgress startingTime w)) =
    (pollTimes w ++ instants (now w) n)%list.
Proof.
  intros Hnever. revert w. induction n as [|n IH]; intros w Hn.
  - assert (Hexp : startingTime + timeout factory <= now w).
    { destruct (Z_lt_dec (now w) (startingTime + timeout factory)) as [Hlt|]; [|lia].
      rewrite sleepsLeft_step in Hn by exact Hlt. discriminate. }
    rewrite pollLoop_expired by exact Hexp. simpl. rewrite app_nil_r. auto.
  - assert (Hlt : now w < startingTime + timeout factory).
    { destruct (Z_lt_dec (now w) (startingTime + timeout factory)) as [|Hge]; [assumption|].
      rewrite sleepsLeft_expired in Hn by lia. discriminate. }
    destruct (pollingFunc (sys w)) as [result s] eqn:Hp.
    assert (result = false) by (specialize (Hnever (sys w)); rewrite Hp in Hnever; exact Hnever).
    subst result.
    rewrite (pollLoop_retry w s Hlt Hp).
    rewrite sleepsLeft_step in Hn by exact Hlt. injection Hn as Hn.
    match goal with |- context [pollLoop _ _ _ _ ?w'] => specialize (IH w' Hn) end.
    destruct IH as [IH1 IH2]. split; [exact IH1|].
    rewrite IH2. simpl. rewrite <- app_assoc. reflexivity.
Qed.

End PollLoop.

(** C3, as the code has it: with a positive timeout and a polling function
    that never returns true, [pollUntilSuccess] returns false after
    invoking it once per second from the starting instant on, at every
    instant that lies strictly before the deadline and at no other:
    [ceil(timeout / 1s)] times, which is [floor(timeout / 1s) + 1] unless
    the timeout is a whole number of seconds, and then [timeout / 1s]. *)
Theorem pollUntilSuccess_never (factory : AppRunnerCommandFactory)
    (pollingFunc : State Sys bool) (outputProgress : bool) (w : World) :
  0 < timeout factory ->
  (forall s, fst (pollingFunc s) = false) ->
  let calls := instants (now w) (secondsBegun (timeout factory)) in
  fst (pollUntilSuccess factory pollingFunc outputProgress w) = false /\
  pollTimes (snd (pollUntilSuccess factory pollingFunc outputProgress w)) =
    (pollTimes w ++ calls)%list /\
  Z.of_nat (length calls) =
    (if timeout factory mod Second =? 0 then timeout factory / Second
     else timeout factory / Second + 1) /\
  hd_error calls = Some (now w) /\
  (forall t, In t calls -> now w <= t < now w + timeout factory).
Proof.
  intros Hpos Hnever calls.
  assert (Hlen : forall t n, length (instants t n) = n).
  { intros t n. revert t. induction n; simpl; auto. }
  pose proof (secondsBegun_floor _ Hpos) as Hfloor.
  pose proof (pollLoop_never factory pollingFunc outputProgress (now w) _ w Hnever
                (sleepsLeft_secondsBegun (now w) (timeout factory))) as [Hok Htimes].
  repeat split.
  - exact Hok.
  - exact Htimes.
  - subst calls. rewrite Hlen. exact Hfloor.
  - subst calls. destruct (secondsBegun (timeout factory)) eqn:Hn; [|reflexivity].
    exfalso. revert Hfloor. simpl.
    pose proof Second_pos.
    assert (0 <= timeout factory / Second) by (apply Z.div_pos; lia).
    destruct (timeout factory mod Second =? 0) eqn:Hz; [|lia].
    apply Z.eqb_eq in Hz.
    pose proof (Z.div_mod (timeout factory) Second ltac:(lia)). nia.
  - eapply instants_range; [|eassumption]. apply sleepsLeft_secondsBegun.
  - eapply instants_range; [|eassumption]. apply sleepsLeft_secondsBegun.
Qed.

Lemma pollUntilSuccess_never_witness :
  fst (pollUntilSuccess (exampleFactory idleRunner 3) (ret false) true epoch) = false /\
  pollTimes (snd (pollUntilSuccess (exampleFactory idleRunner 3) (ret false) true epoch)) =
    [0; Second; 2 * Second].
Proof.
  pose proof (pollUntilSuccess_never (exampleFactory idleRunner 3) (ret false) true epoch
                ltac:(reflexivity) ltac:(reflexivity)) as (H1 & H2 & _).
  split; [exact H1|exact H2].
Defined.

(** C3 as stated fails on a timeout of whole seconds: with a timeout of 3s
    the polling function is invoked at 0s, 1s and 2s, three times, and not
    [floor(3s / 1s) + 1 = 4] times. *)
Lemma pollUntilSuccess_whole_seconds :
  pollTimes (snd (pollUntilSuccess (exampleFactory idleRunner 3) (ret false) true epoch)) =
    [0; Second; 2 * Second] /\
  Z.of_nat (length (pollTimes
     (snd (pollUntilSuccess (exampleFactory idleRunner 3) (ret false) true epoch))))
  <> timeout (exampleFactory idleRunner 3) / Second + 1.
Proof.
  split; [reflexivity|]. vm_compute. discriminate.
Qed.

(** ** Placement errors *)

Section PlacementError.

Variable factory : AppRunnerCommandFactory.
Variable appName : string.
Variable instances : Z.

Let info : nat -> Z * bool :=
  docker_app_runner.RunningAppInstancesInfo (appRunner factory) appName.

Lemma allInstancesRunning_waiting (s : Sys) :
  snd (info (polls s)) = false -> fst (info (polls s)) <> instances ->
  allInstancesRunning factory appName instances s =
  (false, {| trace := (trace s ++ [runner_RunningAppInstancesInfo appName])%list;
             polls := S (polls s);
             placementErrorOccurred := placementErrorOccurred s |}).
Proof.
  intros Hpe Hn. unfold allInstancesRunning, bind, query_RunningAppInstancesInfo.
  fold info. destruct (info (polls s)) as [n pe]. simpl in *. subst pe.
  apply Z.eqb_neq in Hn. rewrite Hn. reflexivity.
Qed.

Lemma allInstancesRunning_fatal (s : Sys) :
  snd (info (polls s)) = true ->
  allInstancesRunning factory appName instances s =
  (true, {| trace := (trace s ++ [runner_RunningAppInstancesInfo appName;
                                  ui_Say (colors.Red PlacementErrorMessage)])%list;
            polls := S (polls s);
            placementErrorOccurred := true |}).
Proof.
  intros Hpe. unfold allInstancesRunning, bind, query_RunningAppInstancesInfo.
  fold info. destruct (info (polls s)) as [n pe]. simpl in *. subst pe.
  unfold emit, set_placementErrorOccurred, ret. simpl.
  rewrite <- app_assoc. reflexivity.
Qed.

(** The loop, when the poll numbered [k] from here is the first that
    converges or fails, and it fails. *)
Lemma pollLoop_fatal (startingTime : Z) (k : nat) (w : World) :
  (forall j, (j < k)%nat ->
             snd (info (polls (sys w) + j)%nat) = false /\
             fst (info (polls (sys w) + j)%nat) <> instances) ->
  snd (info (polls (sys w) + k)%nat) = true ->
  now w + Z.of_nat k * Second < startingTime + timeout factory ->
  pollLoop factory (allInstancesRunning factory appName instances) true startingTime w =
  (true,
   {| now := now w + Z.of_nat k * Second;
      pollTimes := (pollTimes w ++ instants (now w) (S k))%list;
      sys := {| trace := (trace (sys w) ++ waitingPolls appName k ++
                          [runner_RunningAppInstancesInfo appName;
                           ui_Say (colors.Red PlacementErrorMessage);
                           ui_NewLine])%list;
                polls := (polls (sys w) + S k)%nat;
                placementErrorOccurred := true |} |}).
Proof.
  revert w. induction k as [|k IH]; intros w Hbefore Hfatal Htime.
  - rewrite Nat.add_0_r in Hfatal.
    assert (Hlt : now w < startingTime + timeout factory) by lia.
    rewrite (pollLoop_success _ _ _ _ w _ Hlt (allInstancesRunning_fatal _ Hfatal)).
    unfold with_sys, polled, emit. simpl. f_equal. f_equal; [lia|].
    f_equal; [|lia]. rewrite <- app_assoc. reflexivity.
  - destruct (Hbefore O ltac:(lia)) as [Hpe Hn]. rewrite Nat.add_0_r in Hpe, Hn.
    pose proof Second_pos as HS.
    assert (Hlt : now w < startingTime + timeout factory) by lia.
    rewrite (pollLoop_retry _ _ _ _ w _ Hlt (allInstancesRunning_waiting _ Hpe Hn)).
    rewrite IH; simpl.
    + f_equal. f_equal; [lia| |].
      * rewrite <- app_assoc. reflexivity.
      * f_equal; [|lia]. rewrite <- !app_assoc. reflexivity.
    + intros j Hj. rewrite <- Nat.add_succ_r. apply Hbefore. lia.
    + rewrite <- Nat.add_succ_r. exact Hfatal.
    + lia.
Qed.

End PlacementError.

Lemma waitingPolls_In (appName : string) (k : nat) (e : Event) :
  In e (waitingPolls appName k) ->
  e = runner_RunningAppInstancesInfo appName \/ e = ui_Say ".".
Proof.
  induction k as [|k IH]; simpl; [intros []|].
  intros [<-|[<-|H]]; auto.
Qed.

Lemma sayRouteUrls_trace (factory : AppRunnerCommandFactory) (routes : list string) (s : Sys) :
  exists outcome,
    sayRouteUrls factory routes s =
    (outcome, {| trace := (trace s ++ routeUrlEvents factory routes)%list;
                 polls := polls s;
                 placementErrorOccurred := placementErrorOccurred s |}).
Proof.
  revert s. induction routes as [|route rest IH]; intros s; simpl.
  - exists Returned. rewrite app_nil_r. destruct s. reflexivity.
  - destruct (strings.Split route ":") as [|first [|hostnamePrefix others]].
    + exists Panicked. rewrite app_nil_r. destruct s. reflexivity.
    + exists Panicked. rewrite app_nil_r. destruct s. reflexivity.
    + unfold bind, emit.
      match goal with |- context [sayRouteUrls factory rest ?s'] =>
        destruct (IH s') as [outcome Ho] end.
      exists outcome. rewrite Ho. simpl. rewrite <- app_assoc. reflexivity.
Qed.

(** The URL step of [createApp] says [urlEvents] and nothing else. *)
Lemma createApp_urls_trace (factory : AppRunnerCommandFactory) (sub : Submitted) (s : Sys) :
  exists outcome,
    match sub_routeOverrides sub with
    | _ :: _ => sayRouteUrls factory (strings.Split (sub_routesFlag sub) ",")
    | [] => emit (ui_Say (colors.Green (urlForApp factory (sub_name sub)))) ;; ret Returned
    end s =
    (outcome, {| trace := (trace s ++ urlEvents factory sub)%list;
                 polls := polls s;
                 placementErrorOccurred := placementErrorOccurred s |}).
Proof.
  unfold urlEvents. destruct (sub_routeOverrides sub).
  - exists Returned. reflexivity.
  - apply sayRouteUrls_trace.
Qed.

Section FatalWait.

Variable factory : AppRunnerCommandFactory.
Variable appName : string.
Variable instances : Z.
Variable k : nat.
Variable w : World.

Let info : nat -> Z * bool :=
  docker_app_runner.RunningAppInstancesInfo (appRunner factory) appName.

(** The poll numbered [k] is made, and is the first to report a
    placement error: the [k] polls before it neither converged nor
    failed, and the deadline has not passed when it is due. *)
Hypothesis waiting_before :
  forall j, (j < k)%nat ->
            snd (info (polls (sys w) + j)%nat) = false /\
            fst (info (polls (sys w) + j)%nat) <> instances.
Hypothesis placementError_at : snd (info (polls (sys w) + k)%nat) = true.
Hypothesis in_time : Z.of_nat k * Second < timeout factory.

Lemma pollUntilAllInstancesRunning_fatal (action : string) (events : list Event) :
  pollUntilAllInstancesRunning factory appName instances action
    (with_sys w {| trace := (trace (sys w) ++ events)%list;
                   polls := polls (sys w);
                   placementErrorOccurred := placementErrorOccurred (sys w) |}) =
  (false,
   {| now := now w + Z.of_nat k * Second;
      pollTimes := (pollTimes w ++ instants (now w) (S k))%list;
      sys := {| trace := (trace (sys w) ++ events ++ waitingPolls appName k
                          ++ fatalPoll appName)%list;
                polls := (polls (sys w) + S k)%nat;
                placementErrorOccurred := true |} |}).
Proof.
  unfold pollUntilAllInstancesRunning, pollUntilSuccess, bind, lift, clock_Now,
    set_placementErrorOccurred, get_placementErrorOccurred.
  cbn [sys now pollTimes with_sys fst snd trace polls placementErrorOccurred].
  rewrite (pollLoop_fatal factory appName instances (now w) k);
    cbn [sys now pollTimes trace polls placementErrorOccurred].
  - unfold emit, ret. cbn [sys now pollTimes trace polls placementErrorOccurred].
    f_equal. f_equal. f_equal. unfold fatalPoll.
    rewrite <- !app_assoc. reflexivity.
  - exact waiting_before.
  - exact placementError_at.
  - lia.
Qed.

Lemma with_sys_same :
  with_sys w {| trace := (trace (sys w) ++ [])%list;
                polls := polls (sys w);
                placementErrorOccurred := placementErrorOccurred (sys w) |} = w.
Proof. rewrite app_nil_r. destruct w as [t p [tr q b]]. reflexivity. Qed.

(** C4: when a poll of a scale or create convergence wait reports a
    placement error, the wait ends on that poll: the error is said, the
    poller's line is closed, [Exit(PlacementError)] is called and
    [pollUntilAllInstancesRunning] returns false; [setAppInstances] then
    says nothing more, in particular not "App Scaled Successfully", and
    [createApp] goes on to its URLs without saying that the app is
    running. *)
Theorem placementError_is_fatal :
  (forall action,
      let r := pollUntilAllInstancesRunning factory appName instances action w in
      fst r = false /\
      trace (sys (snd r)) =
        (trace (sys w) ++ waitingPolls appName k ++ fatalPoll appName)%list /\
      pollTimes (snd r) = (pollTimes w ++ instants (now w) (S k))%list) /\
  (docker_app_runner.ScaleApp (appRunner factory) appName instances = None ->
   let said :=
     ([runner_ScaleApp appName instances;
       ui_Say ("Scaling " +:+ appName +:+ " to " +:+ strconv.Itoa instances
               +:+ " instances " +:+ LF)]
      ++ waitingPolls appName k ++ fatalPoll appName)%list in
   trace (sys (snd (setAppInstances factory appName instances w))) =
     (trace (sys w) ++ said)%list /\
   ~ In (ui_Say (colors.Green "App Scaled Successfully")) said) /\
  (forall sub,
      sub_name sub = appName -> sub_instances sub = instances ->
      trace (sys (snd (createApp_wait factory sub w))) =
        (trace (sys w) ++ [logs_OutputTailedLogs appName] ++ waitingPolls appName k
         ++ fatalPoll appName ++ urlEvents factory sub ++ [logs_StopOutputting])%list).
Proof.
  split; [|split].
  - intros action r. subst r.
    pose proof (pollUntilAllInstancesRunning_fatal action []) as H.
    rewrite with_sys_same in H. rewrite H. simpl. auto.
  - intros Hscale said. split.
    + unfold setAppInstances, bind, lift, emit.
      cbn [sys now pollTimes trace polls placementErrorOccurred fst snd].
      rewrite Hscale.
      cbn [sys now pollTimes trace polls placementErrorOccurred fst snd].
      rewrite <- app_assoc.
      pose proof (pollUntilAllInstancesRunning_fatal "scale"
                    ([runner_ScaleApp appName instances] ++
                     [ui_Say ("Scaling " +:+ appName +:+ " to " +:+ strconv.Itoa instances
                              +:+ " instances " +:+ LF)])) as H.
      unfold with_sys in H. rewrite H. reflexivity.
    + subst said. intros Hin.
      apply in_app_or in Hin as [Hin|Hin];
        [|apply in_app_or in Hin as [Hin|Hin]].
      * destruct Hin as [H|[H|[]]]; discriminate.
      * apply waitingPolls_In in Hin as [H|H]; discriminate.
      * destruct Hin as [H|[H|[H|[H|[]]]]]; discriminate.
  - intros sub Hname Hinst.
    unfold createApp_wait, bind, lift, emit.
    cbn [sys now pollTimes trace polls placementErrorOccurred fst snd].
    rewrite Hname, Hinst.
    pose proof (pollUntilAllInstancesRunning_fatal "start"
                  [logs_OutputTailedLogs appName]) as H.
    unfold with_sys in H. rewrite H. unfold ret.
    cbn [sys now pollTimes trace polls placementErrorOccurred fst snd].
    match goal with |- context [match sub_routeOverrides sub with _ => _ end ?s] =>
      destruct (createApp_urls_trace factory sub s) as [outcome Ho] end.
    rewrite Hname in Ho. unfold bind, emit, ret in Ho. rewrite Ho.
    cbn [sys now pollTimes trace polls placementErrorOccurred fst snd].
    rewrite <- !app_assoc. reflexivity.
Qed.

End FatalWait.

Lemma placementError_is_fatal_witness :
  fst (pollUntilAllInstancesRunning (exampleFactory fullRunner 5) "app" 1 "scale" epoch)
  = false /\
  trace (sys (snd (pollUntilAllInstancesRunning (exampleFactory fullRunner 5) "app" 1
                     "scale" epoch))) =
    [runner_RunningAppInstancesInfo "app"; ui_Say ".";
     runner_RunningAppInstancesInfo "app"; ui_Say ".";
     runner_RunningAppInstancesInfo "app"; ui_Say (colors.Red PlacementErrorMessage);
     ui_NewLine; exitHandler_Exit exit_codes.PlacementError].
Proof.
  assert (Hbefore : forall j, (j < 2)%nat ->
            snd (docker_app_runner.RunningAppInstancesInfo
                   (appRunner (exampleFactory fullRunner 5)) "app"
                   (polls (sys epoch) + j)%nat) = false /\
            fst (docker_app_runner.RunningAppInstancesInfo
                   (appRunner (exampleFactory fullRunner 5)) "app"
                   (polls (sys epoch) + j)%nat) <> 1).
  { intros [|[|j]] Hj; simpl; [split; [reflexivity|discriminate]..|lia]. }
  pose proof (placementError_is_fatal (exampleFactory fullRunner 5) "app" 1 2 epoch
                Hbefore eq_refl eq_refl) as [H _].
  destruct (H "scale") as (H1 & H2 & _). split; [exact H1|exact H2].
Defined.

(** ** The create command *)

(** With more than four arguments the third case of the switch is taken,
    whatever the CPU weight. *)
Lemma createApp_switch_long (args : list string) (startCommand terminator : string)
    (cpuWeightFlag : Z) :
  (4 < length args)%nat ->
  startCommand = EmptyString \/ terminator = "--" ->
  createApp_switch args startCommand terminator cpuWeightFlag = inr (drop 4 args).
Proof.
  intros Hlen Hsep. unfold createApp_switch.
  destruct (Nat.ltb_spec (length args) 2); [lia|].
  assert (Hs : negb (String.eqb startCommand EmptyString) && negb (String.eqb terminator "--")
               = false).
  { destruct Hsep as [->| ->]; [reflexivity|]. rewrite String.eqb_refl. apply andb_false_r. }
  rewrite Hs. destruct (Nat.ltb_spec 4 (length args)); [reflexivity|lia].
Qed.

(** With two to four arguments the CPU weight is checked. *)
Lemma createApp_switch_short (args : list string) (startCommand terminator : string)
    (cpuWeightFlag : Z) :
  (2 <= length args <= 4)%nat ->
  startCommand = EmptyString \/ terminator = "--" ->
  cpuWeightFlag < 1 \/ 100 < cpuWeightFlag ->
  createApp_switch args startCommand terminator cpuWeightFlag = inl "Invalid CPU Weight".
Proof.
  intros Hlen Hsep Hcpu. unfold createApp_switch.
  destruct (Nat.ltb_spec (length args) 2); [lia|].
  assert (Hs : negb (String.eqb startCommand EmptyString) && negb (String.eqb terminator "--")
               = false).
  { destruct Hsep as [->| ->]; [reflexivity|]. rewrite String.eqb_refl. apply andb_false_r. }
  rewrite Hs. destruct (Nat.ltb_spec 4 (length args)); [lia|].
  destruct (Z.ltb_spec cpuWeightFlag 1), (Z.ltb_spec 100 cpuWeightFlag); simpl;
    try reflexivity; lia.
Qed.

(** C5, on the code: with four application words and a CPU weight of 0 the
    weight is refused, with a fifth word it is not looked at: the metadata is
    fetched and the app is submitted with [CPUWeight = 0], and no usage
    error is reported. *)
Theorem createApp_cpu_weight_unchecked :
  trace (sys (snd (createApp (exampleFactory idleRunner 1) (weightlessContext []) epoch)))
  = [ui_IncorrectUsage "Invalid CPU Weight"] /\
  createApp_switch (cli.Args (weightlessContext ["-v"])) "/run" "--" (uint 0) = inr ["-v"] /\
  hd_error (trace (sys (snd (createApp (exampleFactory idleRunner 1)
                               (weightlessContext ["-v"]) epoch))))
  = Some (fetcher_FetchMetadata "img") /\
  (exists params,
      In (runner_CreateDockerApp params)
         (trace (sys (snd (createApp (exampleFactory idleRunner 1)
                             (weightlessContext ["-v"]) epoch)))) /\
      docker_app_runner.CPUWeight params = 0) /\
  (forall message,
      ~ In (ui_IncorrectUsage message)
           (trace (sys (snd (createApp (exampleFactory idleRunner 1)
                               (weightlessContext ["-v"]) epoch))))).
Proof.
  split; [reflexivity|]. split; [reflexivity|]. split; [reflexivity|]. split.
  - eexists. split; [|shelve]. vm_compute. do 4 right. left. reflexivity.
    Unshelve. reflexivity.
  - intros message. vm_compute.
    intros H. repeat (destruct H as [H|H]; [discriminate|]). exact H.
Qed.

(** What a successful submission hands to the wait. *)
Lemma createApp_submit_Some (factory : AppRunnerCommandFactory) (context : cli.Context)
    (s s' : Sys) (sub : Submitted) :
  createApp_submit factory context s = (Some sub, s') ->
  sub_name sub = cli.Get (cli.Args context) 0 /\
  sub_instances sub = cli.instances context /\
  sub_routesFlag sub = cli.routes context /\
  parseRouteOverrides (cli.routes context) = (sub_routeOverrides sub, None).
Proof.
  unfold createApp_submit, bind, ret. intros H.
  repeat match type of H with
         | context [match ?x with _ => _ end] => destruct x eqn:?
         | context [if ?x then _ else _] => destruct x eqn:?
         end;
    try discriminate; inversion H; subst; simpl; auto.
Qed.

(** When no piece of the routes flag is empty, the URL loop says one URL
    per override, in order. *)
Lemma parseRouteOverrides_range_urls (factory : AppRunnerCommandFactory)
    (segments : list string) (acc routeOverrides : docker_app_runner.RouteOverrides) :
  parseRouteOverrides_range segments acc = (routeOverrides, None) ->
  (forall piece, In piece segments -> piece <> EmptyString) ->
  exists new,
    routeOverrides = (acc ++ new)%list /\
    routeUrlEvents factory segments = map (sayUrl factory) new.
Proof.
  revert acc. induction segments as [|route rest IH]; intros acc Hparse Hfull.
  - simpl in Hparse. inversion Hparse. exists []. rewrite app_nil_r. auto.
  - simpl in Hparse.
    assert (Hne : String.eqb route EmptyString = false).
    { apply String.eqb_neq. apply Hfull. left. reflexivity. }
    rewrite Hne in Hparse.
    destruct (strconv.Atoi (at0 (strings.Split route ":"))) as [maybePort|];
      [|discriminate].
    destruct (length (strings.Split route ":") <? 2)%nat eqn:Hlen; [discriminate|].
    apply IH in Hparse as (new & -> & Hurls);
      [|intros piece Hp; apply Hfull; right; exact Hp].
    eexists (_ :: new). rewrite <- app_assoc. split; [reflexivity|].
    simpl. destruct (strings.Split route ":") as [|left [|hostnamePrefix others]];
      [discriminate..|].
    rewrite Hurls. reflexivity.
Qed.

(** C9, as the code has it: after a successful submission the report that
    the app is running is said exactly when the convergence poll returns
    true, and the URLs are said after the poll whatever it returned: the
    one derived from the application name when there are no overrides, and
    one per override's hostname prefix when there are and no piece of the
    routes flag is empty. *)
Theorem createApp_reports (factory : AppRunnerCommandFactory) (context : cli.Context)
    (w : World) (sub : Submitted) (s : Sys) :
  createApp_submit factory context (sys w) = (Some sub, s) ->
  let started := with_sys w (snd (emit (logs_OutputTailedLogs (sub_name sub)) s)) in
  let r := pollUntilAllInstancesRunning factory (sub_name sub) (sub_instances sub)
             "start" started in
  trace (sys (snd (createApp factory context w))) =
    (trace (sys (snd r))
     ++ (if fst r
         then [ui_Say (colors.Green (sub_name sub +:+ " is now running." +:+ LF))]
         else [])
     ++ urlEvents factory sub ++ [logs_StopOutputting])%list /\
  (sub_routeOverrides sub = [] ->
   urlEvents factory sub = [ui_Say (colors.Green (urlForApp factory (sub_name sub)))]) /\
  (sub_routeOverrides sub <> [] ->
   (forall piece, In piece (strings.Split (sub_routesFlag sub) ",") ->
                  piece <> EmptyString) ->
   urlEvents factory sub = map (sayUrl factory) (sub_routeOverrides sub)).
Proof.
  intros Hsub started r. split; [|split].
  - unfold createApp, bind, lift at 1. rewrite Hsub.
    unfold createApp_wait, bind, lift.
    subst r started. unfold with_sys, emit at 1 3.
    cbn [sys now pollTimes trace polls placementErrorOccurred fst snd].
    destruct (pollUntilAllInstancesRunning factory (sub_name sub) (sub_instances sub)
                "start" _) as [ok w1].
    cbn [fst snd].
    destruct ok; unfold ret, emit, bind;
      cbn [sys now pollTimes trace polls placementErrorOccurred fst snd];
      match goal with |- context [match sub_routeOverrides sub with _ => _ end ?s'] =>
        destruct (createApp_urls_trace factory sub s') as [outcome Ho] end;
      unfold ret, emit, bind in Ho; rewrite Ho;
      cbn [sys now pollTimes trace polls placementErrorOccurred fst snd];
      rewrite <- ?app_assoc; reflexivity.
  - intros Hnil. unfold urlEvents. rewrite Hnil. reflexivity.
  - intros Hsome Hfull.
    apply createApp_submit_Some in Hsub as (_ & _ & Hflag & Hparse).
    unfold parseRouteOverrides in Hparse. rewrite <- Hflag in Hparse.
    apply (parseRouteOverrides_range_urls factory) in Hparse as (new & Hnew & Hurls);
      [|exact Hfull].
    simpl in Hnew. subst new. unfold urlEvents.
    destruct (sub_routeOverrides sub); [congruence|exact Hurls].
Qed.

Lemma createApp_reports_witness :
  let factory := exampleFactory readyRunner 2 in
  trace (sys (snd (createApp factory exampleContext epoch))) =
    (trace (sys (snd (lift (createApp_submit factory exampleContext) epoch)))
     ++ [logs_OutputTailedLogs "app"; runner_RunningAppInstancesInfo "app"; ui_NewLine;
         ui_Say (colors.Green ("app" +:+ " is now running." +:+ LF));
         ui_Say (colors.Green (urlForApp factory "app"));
         logs_StopOutputting])%list.
Proof.
  intros factory.
  refine (eq_trans
            (proj1 (createApp_reports factory exampleContext epoch exampleSubmitted
                      (snd (createApp_submit factory exampleContext (sys epoch))) _)) _);
    reflexivity.
Defined.

(** C9 as stated fails: when no instance comes up within the timeout, the
    wait is reported as too long, no success is reported, and the URL is
    said all the same. *)
Lemma createApp_url_after_timeout :
  let factory := exampleFactory idleRunner 2 in
  let said := trace (sys (snd (createApp factory exampleContext epoch))) in
  (exists before,
      said = (before ++ [ui_NewLine;
                         ui_SayLine (colors.Red "app took too long to start.");
                         ui_Say (colors.Green (urlForApp factory "app"));
                         logs_StopOutputting])%list) /\
  In (ui_Say (colors.Green (urlForApp factory "app"))) said /\
  ~ In (ui_Say (colors.Green ("app" +:+ " is now running." +:+ LF))) said.
Proof.
  intros factory said. split; [|split].
  - exists (firstn 11 said). reflexivity.
  - vm_compute. do 13 right. left. reflexivity.
  - vm_compute. intros H. repeat (destruct H as [H|H]; [discriminate|]). exact H.
Qed.

(** ** Decimal text and back *)

Ltac digit_step IH :=
  cbn [NilEmpty.string_of_uint strconv.digits Pos.of_uint_acc];
  match goal with
  | |- context [strconv.digit ?c] =>
      let v := eval vm_compute in (strconv.digit c) in
      change (strconv.digit c) with v
  end;
  cbv beta iota;
  match goal with
  | |- strconv.digits ?a _ = Some (Z.pos (Pos.of_uint_acc _ ?q)) =>
      replace a with (Z.pos q) by lia; apply IH
  end.

Lemma digits_of_uint_acc (d : Decimal.uint) (p : positive) :
  strconv.digits (Z.pos p) (NilEmpty.string_of_uint d) = Some (Z.pos (Pos.of_uint_acc d p)).
Proof.
  revert p. induction d as [|d IH|d IH|d IH|d IH|d IH|d IH|d IH|d IH|d IH|d IH];
    intros p; [reflexivity|digit_step IH..].
Qed.

Lemma digits_of_uint (d : Decimal.uint) :
  strconv.digits 0 (NilEmpty.string_of_uint d) = Some (Z.of_N (Pos.of_uint d)).
Proof.
  induction d as [|d IH|d IH|d IH|d IH|d IH|d IH|d IH|d IH|d IH|d IH];
    [reflexivity|exact IH|..];
    cbn [NilEmpty.string_of_uint strconv.digits Pos.of_uint];
    match goal with
    | |- context [strconv.digit ?c] =>
        let v := eval vm_compute in (strconv.digit c) in
        change (strconv.digit c) with v
    end; cbv beta iota; apply (digits_of_uint_acc d).
Qed.

Lemma to_uint_digits (p : positive) :
  exists c s, NilEmpty.string_of_uint (Pos.to_uint p) = String c s /\
              Ascii.eqb c "-" = false /\ Ascii.eqb c "+" = false.
Proof.
  pose proof (DecimalPos.Unsigned.of_to p) as H.
  destruct (Pos.to_uint p); [discriminate|..]; simpl; eauto.
Qed.

(** [Atoi] reads back what [Itoa] writes. *)
Lemma Atoi_Itoa (i : Z) :
  strconv.minInt <= i <= strconv.maxInt -> strconv.Atoi (strconv.Itoa i) = Some i.
Proof.
  intros Hrange. unfold strconv.Itoa.
  assert (Hin : (strconv.minInt <=? i) && (i <=? strconv.maxInt) = true)
    by (apply andb_true_iff; split; apply Z.leb_le; lia).
  destruct i as [|p|p]; [reflexivity|..]; unfold Z.to_int, NilZero.string_of_int.
  - pose proof (digits_of_uint (Pos.to_uint p)) as Hd.
    rewrite DecimalPos.Unsigned.of_to in Hd. change (Z.of_N (N.pos p)) with (Z.pos p) in Hd.
    destruct (to_uint_digits p) as (c & s & Hs & Hm & Hp).
    unfold NilZero.string_of_uint.
    destruct (Pos.to_uint p) eqn:Hu; [discriminate|..];
      rewrite <- Hu in *; rewrite Hs in *; unfold strconv.Atoi;
      rewrite Hm, Hp, Hd; cbv zeta; rewrite Hin; reflexivity.
  - pose proof (digits_of_uint (Pos.to_uint p)) as Hd.
    rewrite DecimalPos.Unsigned.of_to in Hd. change (Z.of_N (N.pos p)) with (Z.pos p) in Hd.
    destruct (to_uint_digits p) as (c & s & Hs & Hm & Hp).
    unfold NilZero.string_of_uint.
    destruct (Pos.to_uint p) eqn:Hu; [discriminate|..];
      rewrite <- Hu in *; rewrite Hs in *; unfold strconv.Atoi;
      rewrite Ascii.eqb_refl, Hd; cbv zeta;
      change (- Z.pos p) with (Z.neg p); rewrite Hin; reflexivity.
Qed.

(** ** Port configuration, further *)

Lemma convertPorts_valid (portStrings : list string) (acc : list Z) :
  (forall p, In p portStrings -> validPortToken p) ->
  convertPorts portStrings acc = Some (acc ++ map portOf portStrings)%list.
Proof.
  revert acc. induction portStrings as [|p rest IH]; intros acc Hvalid; simpl.
  - rewrite app_nil_r. reflexivity.
  - destruct (Hvalid p (or_introl eq_refl)) as (intPort & Hp & Hle).
    unfold portOf at 1. rewrite Hp.
    destruct (Z.ltb_spec 65535 intPort); [lia|].
    rewrite IH by (intros q Hq; apply Hvalid; right; exact Hq).
    rewrite <- app_assoc. reflexivity.
Qed.

Lemma convertPorts_None (portStrings : list string) (acc : list Z) :
  convertPorts portStrings acc = None ->
  exists p, In p portStrings /\ invalidPortToken p.
Proof.
  revert acc. induction portStrings as [|p rest IH]; intros acc; simpl; [discriminate|].
  destruct (strconv.Atoi p) as [intPort|] eqn:Hp.
  - destruct (Z.ltb_spec 65535 intPort) as [Hgt|Hle].
    + intros _. exists p. split; [left; reflexivity|].
      unfold invalidPortToken. rewrite Hp. exact Hgt.
    + intros H. apply IH in H as (q & Hq & Hbad). exists q. split; [right|]; assumption.
  - intros _. exists p. split; [left; reflexivity|].
    unfold invalidPortToken. rewrite Hp. exact I.
Qed.

Lemma sort_Strings_single (p : string) : sort.Strings [p] = [p].
Proof. reflexivity. Qed.

(** X1: a ports flag made of one token that [Atoi] accepts with a value of
    at most 65535 makes that port, as a [uint16], both the only exposed port
    and the monitored port: the monitored-port flag and the no-monitor flag
    are not looked at, and nothing is said. *)
Theorem getPortConfigFromArgs_single_port (factory : AppRunnerCommandFactory)
    (p : string) (intPort monitoredPortFlag : Z) (noMonitorFlag : bool)
    (imageMetadata : docker_metadata_fetcher.ImageMetadata) (s : Sys) :
  strconv.Atoi p = Some intPort -> intPort <= 65535 ->
  getPortConfigFromArgs factory p monitoredPortFlag noMonitorFlag imageMetadata s =
  (({| docker_app_runner.Monitored := uint16 intPort;
       docker_app_runner.Exposed := [uint16 intPort] |}, None), s).
Proof.
  intros Hp Hle.
  rewrite getPortConfigFromArgs_flag by (eapply Atoi_not_empty; eauto). cbv zeta.
  rewrite Split_single by (eapply Atoi_no_comma; eauto).
  simpl length. simpl andb. cbv iota. rewrite sort_Strings_single.
  simpl. rewrite Hp. destruct (Z.ltb_spec 65535 intPort); [lia|]. reflexivity.
Qed.

Lemma getPortConfigFromArgs_single_port_witness :
  getPortConfigFromArgs (exampleFactory idleRunner 3) "8080" 9090 true noMetadata emptySys =
  (({| docker_app_runner.Monitored := 8080; docker_app_runner.Exposed := [8080] |}, None),
   emptySys).
Proof.
  apply (getPortConfigFromArgs_single_port _ "8080" 8080); [reflexivity|lia].
Defined.

(** X2: when the ports flag is not empty, the monitored-port guard does not
    fire and every comma-separated token is accepted with a value of at
    most 65535, the result carries no error and says nothing; the exposed
    ports are the tokens' ports in the ascending byte-wise order of the
    token texts (not in numeric order, and keeping duplicates), and the
    monitored port is the monitored-port flag as a [uint16] when there are
    several tokens. *)
Theorem getPortConfigFromArgs_valid_ports (factory : AppRunnerCommandFactory)
    (portsFlag : string) (monitoredPortFlag : Z) (noMonitorFlag : bool)
    (imageMetadata : docker_metadata_fetcher.ImageMetadata) (s : Sys) :
  portsFlag <> EmptyString ->
  (monitoredPortFlag <> 0 \/ noMonitorFlag = true) ->
  (2 <= length (strings.Split portsFlag ","))%nat ->
  (forall p, In p (strings.Split portsFlag ",") -> validPortToken p) ->
  getPortConfigFromArgs factory portsFlag monitoredPortFlag noMonitorFlag imageMetadata s =
  (({| docker_app_runner.Monitored := uint16 monitoredPortFlag;
       docker_app_runner.Exposed :=
         map portOf (sort.Strings (strings.Split portsFlag ",")) |}, None), s) /\
  Sorted String.leb (sort.Strings (strings.Split portsFlag ",")) /\
  sort.Strings (strings.Split portsFlag ",") ≡ₚ strings.Split portsFlag ",".
Proof.
  intros Hne Hguard Hlen Hvalid. split; [|split].
  - rewrite getPortConfigFromArgs_flag by exact Hne. cbv zeta.
    assert (Hg : (1 <? length (strings.Split portsFlag ","))%nat && (monitoredPortFlag =? 0)
                 && negb noMonitorFlag = false).
    { destruct Hguard as [Hmp|Hnm].
      - apply Z.eqb_neq in Hmp. rewrite Hmp. rewrite andb_false_r. reflexivity.
      - rewrite Hnm. apply andb_false_r. }
    rewrite Hg.
    rewrite convertPorts_valid
      by (intros p Hp; apply Hvalid; apply sort_Strings_In; exact Hp).
    rewrite sort_Strings_length.
    destruct (Nat.ltb_spec 1 (length (strings.Split portsFlag ","))); [reflexivity|lia].
  - apply sort_Strings_sorted.
  - apply merge_sort_Permutation.
Qed.

Lemma getPortConfigFromArgs_valid_ports_witness :
  getPortConfigFromArgs (exampleFactory idleRunner 3) "9,80,100" 80 false noMetadata emptySys =
  (({| docker_app_runner.Monitored := 80; docker_app_runner.Exposed := [100; 80; 9] |}, None),
   emptySys).
Proof.
  refine (proj1 (getPortConfigFromArgs_valid_ports (exampleFactory idleRunner 3)
                   "9,80,100" 80 false noMetadata emptySys _ _ _ _)).
  - discriminate.
  - left. lia.
  - simpl. lia.
  - intros p Hp. simpl in Hp.
    destruct Hp as [<-|[<-|[<-|[]]]]; [exists 9|exists 80|exists 100];
      (split; [reflexivity|lia]).
Defined.

(** X3: an error from [getPortConfigFromArgs] always comes with the zero
    PortConfig and with nothing said, and it is one of two: the
    monitored-port message, exactly when several tokens are listed with no
    monitored-port flag and monitoring enabled; or the invalid-port message,
    and then some token of the flag does not parse or exceeds 65535. *)
Theorem getPortConfigFromArgs_error (factory : AppRunnerCommandFactory)
    (portsFlag : string) (monitoredPortFlag : Z) (noMonitorFlag : bool)
    (imageMetadata : docker_metadata_fetcher.ImageMetadata) (s s' : Sys)
    (portConfig : docker_app_runner.PortConfig) (message : string) :
  getPortConfigFromArgs factory portsFlag monitoredPortFlag noMonitorFlag imageMetadata s
  = ((portConfig, Some message), s') ->
  portConfig = zeroPortConfig /\ s' = s /\ portsFlag <> EmptyString /\
  ((message = MustSetMonitoredPortErrorMessage /\
    (2 <= length (strings.Split portsFlag ","))%nat /\
    monitoredPortFlag = 0 /\ noMonitorFlag = false) \/
   (message = InvalidPortErrorMessage /\
    exists p, In p (strings.Split portsFlag ",") /\ invalidPortToken p)).
Proof.
  intros Hrun.
  destruct (String.eqb portsFlag EmptyString) eqn:Hp.
  - exfalso. apply String.eqb_eq in Hp. subst portsFlag.
    unfold getPortConfigFromArgs in Hrun. simpl in Hrun.
    destruct (docker_app_runner.IsEmpty (docker_metadata_fetcher.Ports imageMetadata));
      simpl in Hrun; [destruct noMonitorFlag; simpl in Hrun|]; inversion Hrun.
  - apply String.eqb_neq in Hp.
    rewrite getPortConfigFromArgs_flag in Hrun by exact Hp. cbv zeta in Hrun.
    destruct ((1 <? length (strings.Split portsFlag ","))%nat && (monitoredPortFlag =? 0)
              && negb noMonitorFlag) eqn:Hg.
    + inversion Hrun; subst. repeat split; try assumption. left.
      apply andb_true_iff in Hg as [Hg Hnm]. apply andb_true_iff in Hg as [Hlen Hmp].
      apply Nat.ltb_lt in Hlen. apply Z.eqb_eq in Hmp. apply negb_true_iff in Hnm.
      repeat split; [lia|exact Hmp|exact Hnm].
    + destruct (convertPorts (sort.Strings (strings.Split portsFlag ",")) []) eqn:Hc;
        inversion Hrun; subst. repeat split; try assumption. right.
      split; [reflexivity|].
      apply convertPorts_None in Hc as (p & Hin & Hbad). exists p.
      split; [apply sort_Strings_In; exact Hin|exact Hbad].
Qed.

Lemma getPortConfigFromArgs_error_witness :
  (InvalidPortErrorMessage = MustSetMonitoredPortErrorMessage /\
   (2 <= length (strings.Split "80,x" ","))%nat /\ 5 = 0 /\ false = false) \/
  (InvalidPortErrorMessage = InvalidPortErrorMessage /\
   exists p, In p (strings.Split "80,x" ",") /\ invalidPortToken p).
Proof.
  refine (proj2 (proj2 (proj2
            (getPortConfigFromArgs_error (exampleFactory idleRunner 3) "80,x" 5 false
               noMetadata emptySys emptySys zeroPortConfig InvalidPortErrorMessage _)))).
  reflexivity.
Defined.

(** ** Route overrides, further *)

(** What the loop returns when it returns an error, and why. *)
Lemma parseRouteOverrides_range_error (segments : list string)
    (acc routeOverrides : docker_app_runner.RouteOverrides) (message : string) :
  parseRouteOverrides_range segments acc = (routeOverrides, Some message) ->
  routeOverrides = [] /\ message = MalformedRouteErrorMessage /\
  exists route, In route segments /\ route <> EmptyString /\ ~ wellFormedRoute route.
Proof.
  revert acc. induction segments as [|route rest IH]; intros acc; simpl; [discriminate|].
  destruct (String.eqb route EmptyString) eqn:He.
  - intros H. apply IH in H as (H1 & H2 & bad & Hin & Hne & Hbad).
    repeat split; try assumption. exists bad. auto.
  - apply String.eqb_neq in He. rewrite Split_at0, Split_few.
    destruct (strconv.Atoi (strings.before ":" route)) as [maybePort|] eqn:Hleft.
    + destruct (strings.contains ":" route) eqn:Hcolon; simpl.
      * intros H. apply IH in H as (H1 & H2 & bad & Hin & Hne & Hbad).
        repeat split; try assumption. exists bad. auto.
      * intros H. inversion H; subst. repeat split.
        exists route. repeat split; [left; reflexivity|exact He|].
        intros [Hc _]. congruence.
    + intros H. inversion H; subst. repeat split.
      exists route. repeat split; [left; reflexivity|exact He|].
      intros [_ Hn]. congruence.
Qed.

Lemma parseRouteOverrides_range_malformed (segments : list string)
    (acc : docker_app_runner.RouteOverrides) (bad : string) :
  In bad segments -> bad <> EmptyString -> ~ wellFormedRoute bad ->
  parseRouteOverrides_range segments acc = ([], Some MalformedRouteErrorMessage).
Proof.
  revert acc. induction segments as [|route rest IH]; intros acc Hin Hne Hbad;
    [destruct Hin|]. simpl.
  destruct (String.eqb route EmptyString) eqn:He.
  - apply String.eqb_eq in He. subst route.
    destruct Hin as [<-|Hin]; [congruence|]. apply IH; assumption.
  - rewrite Split_at0, Split_few.
    destruct (strconv.Atoi (strings.before ":" route)) as [maybePort|] eqn:Hleft;
      [|reflexivity].
    destruct (strings.contains ":" route) eqn:Hcolon; simpl; [|reflexivity].
    destruct Hin as [<-|Hin]; [|apply IH; assumption].
    exfalso. apply Hbad. split; [exact Hcolon|congruence].
Qed.

(** X4: [parseRouteOverrides] is all or nothing.  It returns an error
    exactly when some non-empty comma-separated segment has no colon or a
    left part that [Atoi] refuses; the error is then
    [MalformedRouteErrorMessage] and the list is nil, whatever the segments
    before the offending one were. *)
Theorem parseRouteOverrides_malformed (routes : string) :
  (exists route, In route (strings.Split routes ",") /\ route <> EmptyString /\
                 ~ wellFormedRoute route) <->
  parseRouteOverrides routes = ([], Some MalformedRouteErrorMessage).
Proof.
  unfold parseRouteOverrides. split.
  - intros (bad & Hin & Hne & Hbad). eapply parseRouteOverrides_range_malformed; eauto.
  - intros H. apply parseRouteOverrides_range_error in H as (_ & _ & H). exact H.
Qed.

Lemma parseRouteOverrides_malformed_witness :
  parseRouteOverrides "80:web,api,8080:x" = ([], Some MalformedRouteErrorMessage).
Proof.
  apply (proj1 (parseRouteOverrides_malformed "80:web,api,8080:x")).
  exists "api". split; [simpl; auto|]. split; [discriminate|].
  intros [Hc _]. discriminate.
Defined.

(** What the loop returns when it returns no error. *)
Lemma parseRouteOverrides_range_success (segments : list string)
    (acc routeOverrides : docker_app_runner.RouteOverrides) :
  parseRouteOverrides_range segments acc = (routeOverrides, None) ->
  routeOverrides = (acc ++ map routeOf (List.filter nonEmpty segments))%list /\
  forall route, In route segments -> route <> EmptyString -> wellFormedRoute route.
Proof.
  revert acc. induction segments as [|route rest IH]; intros acc; simpl.
  - intros H. inversion H. rewrite app_nil_r. split; [reflexivity|intros ? []].
  - unfold nonEmpty at 1. destruct (String.eqb route EmptyString) eqn:He; simpl.
    + intros H. apply IH in H as [H1 H2]. split; [exact H1|].
      intros r [<-|Hr] Hne; [|auto]. apply String.eqb_eq in He. congruence.
    + rewrite Split_at0, Split_at1, Split_few.
      destruct (strconv.Atoi (strings.before ":" route)) as [maybePort|] eqn:Hleft;
        [|discriminate].
      destruct (strings.contains ":" route) eqn:Hcolon; simpl; [|discriminate].
      intros H. apply IH in H as [H1 H2]. split.
      * rewrite H1, <- app_assoc. simpl. unfold routeOf at 2. rewrite Hleft. reflexivity.
      * intros r [<-|Hr] Hne; [|auto]. split; [exact Hcolon|congruence].
Qed.



(** ** Environment, further *)

Lemma buildEnvironment_range_lookup (factory : AppRunnerCommandFactory)
    (envVars : list string) (environment : gmap string string) (name : string) :
  buildEnvironment_range factory envVars environment !! name =
  match lastNamed name envVars with
  | Some envVarPair => Some (envValue factory envVarPair)
  | None => environment !! name
  end.
Proof.
  revert environment. induction envVars as [|envVarPair rest IH]; intros environment.
  - reflexivity.
  - simpl. rewrite parseEnvVarPair_parts. rewrite IH.
    destruct (lastNamed name rest); [reflexivity|].
    destruct (String.eqb (strings.before "=" envVarPair) name) eqn:Hn.
    + apply String.eqb_eq in Hn. subst name. rewrite lookup_insert_eq. reflexivity.
    + apply String.eqb_neq in Hn. rewrite lookup_insert_ne by exact Hn. reflexivity.
Qed.

(** X6: [buildEnvironment] is last-wins and total.  A name is bound exactly
    when some token has it as its name (the text before the first ['=']);
    it is then bound to the value of the last such token, whatever came
    before: the text between the first ['='] and the next when that is not
    empty, else what [grabVarFromEnv] finds for the name. *)
Theorem buildEnvironment_lookup (factory : AppRunnerCommandFactory)
    (envVars : list string) (name : string) :
  buildEnvironment factory envVars !! name =
  option_map (envValue factory) (lastNamed name envVars).
Proof.
  unfold buildEnvironment. rewrite buildEnvironment_range_lookup.
  destruct (lastNamed name envVars); reflexivity.
Qed.

(** X7: [grabVarFromEnv] takes the first inherited entry that starts with
    the name, as a prefix of the whole entry and not as its exact name, and
    returns that entry's value part; with no such entry it returns the empty
    string. *)
Theorem grabVarFromEnv_first_prefix (factory : AppRunnerCommandFactory)
    (name : string) :
  (forall earlier entry later,
      env factory = (earlier ++ entry :: later)%list ->
      (forall e, In e earlier -> strings.HasPrefix e name = false) ->
      strings.HasPrefix entry name = true ->
      grabVarFromEnv factory name = strings.before "=" (strings.after "=" entry)) /\
  ((forall e, In e (env factory) -> strings.HasPrefix e name = false) ->
   grabVarFromEnv factory name = EmptyString).
Proof.
  unfold grabVarFromEnv. split.
  - intros earlier entry later -> Hearlier Hentry.
    induction earlier as [|e earlier IH]; simpl.
    + rewrite Hentry, parseEnvVarPair_parts. reflexivity.
    + rewrite (Hearlier e (or_introl eq_refl)). apply IH.
      intros e' He'. apply Hearlier. right. exact He'.
  - induction (env factory) as [|e rest IH]; intros Hnone; simpl; [reflexivity|].
    rewrite (Hnone e (or_introl eq_refl)). apply IH.
    intros e' He'. apply Hnone. right. exact He'.
Qed.

Lemma grabVarFromEnv_first_prefix_witness :
  grabVarFromEnv (exampleFactory idleRunner 3) "PA" = "/bin".
Proof.
  apply (proj1 (grabVarFromEnv_first_prefix (exampleFactory idleRunner 3) "PA")
           ["NAME=inherited"] "PATH=/bin" []).
  - reflexivity.
  - intros e [<-|[]]. reflexivity.
  - reflexivity.
Defined.

(** ** The convergence poller, for any polling function *)

Section PollLoopRun.

Variable factory : AppRunnerCommandFactory.
Variable pollingFunc : State Sys bool.
Variable outputProgress : bool.
Variable startingTime : Z.

Lemma sleepsLeft_O (deadline t : Z) : sleepsLeft deadline t = O -> deadline <= t.
Proof.
  intros H. destruct (Z_lt_dec t deadline) as [Hlt|]; [|lia].
  rewrite sleepsLeft_step in H by exact Hlt. discriminate.
Qed.

Lemma sleepsLeft_S (deadline t : Z) (m : nat) :
  sleepsLeft deadline t = S m -> t < deadline /\ sleepsLeft deadline (t + Second) = m.
Proof.
  intros H. destruct (Z_lt_dec t deadline) as [Hlt|Hge].
  - rewrite sleepsLeft_step in H by exact Hlt. injection H as H. auto.
  - rewrite sleepsLeft_expired in H by lia. discriminate.
Qed.



End PollLoopRun.




(** ** Convergence and timeout of the wait for instances *)

Lemma secondsBegun_lt (timeout : Z) (k : nat) :
  (k < secondsBegun timeout)%nat <-> Z.of_nat k * Second < timeout.
Proof.
  unfold secondsBegun. pose proof Second_pos as HS.
  pose proof (Z.div_mod (timeout + Second - 1) Second ltac:(lia)) as Hdm.
  pose proof (Z.mod_pos_bound (timeout + Second - 1) Second HS) as Hr.
  set (q := (timeout + Second - 1) / Second) in *.
  set (r := (timeout + Second - 1) mod Second) in *.
  split; intros H.
  - assert (Z.of_nat k + 1 <= q) by lia. nia.
  - assert (Z.of_nat k < q) by nia. lia.
Qed.

Section Wait.

Variable factory : AppRunnerCommandFactory.
Variable appName : string.
Variable instances : Z.

Lemma allInstancesRunning_undecided (s : Sys) :
  undecided factory appName instances (polls s) ->
  allInstancesRunning factory appName instances s =
  (false, {| trace := (trace s ++ [runner_RunningAppInstancesInfo appName])%list;
             polls := S (polls s);
             placementErrorOccurred := placementErrorOccurred s |}).
Proof. intros [H1 H2]. apply allInstancesRunning_waiting; assumption. Qed.

Lemma allInstancesRunning_converged (s : Sys) :
  converged factory appName instances (polls s) ->
  allInstancesRunning factory appName instances s =
  (true, {| trace := (trace s ++ [runner_RunningAppInstancesInfo appName])%list;
            polls := S (polls s);
            placementErrorOccurred := placementErrorOccurred s |}).
Proof.
  intros [Hpe Hn]. unfold converged, answer in *.
  unfold allInstancesRunning, bind, query_RunningAppInstancesInfo.
  destruct (docker_app_runner.RunningAppInstancesInfo (appRunner factory) appName (polls s))
    as [n pe]. simpl in *. subst pe n. rewrite Z.eqb_refl. reflexivity.
Qed.

Lemma pollLoop_converged (startingTime : Z) (k : nat) (w : World) :
  (forall j, (j < k)%nat -> undecided factory appName instances (polls (sys w) + j)) ->
  converged factory appName instances (polls (sys w) + k) ->
  now w + Z.of_nat k * Second < startingTime + timeout factory ->
  pollLoop factory (allInstancesRunning factory appName instances) true startingTime w =
  (true,
   {| now := now w + Z.of_nat k * Second;
      pollTimes := (pollTimes w ++ instants (now w) (S k))%list;
      sys := {| trace := (trace (sys w) ++ waitingPolls appName k
                          ++ convergedPoll appName)%list;
                polls := (polls (sys w) + S k)%nat;
                placementErrorOccurred := placementErrorOccurred (sys w) |} |}).
Proof.
  revert w. induction k as [|k IH]; intros w Hbefore Hconv Htime.
  - rewrite Nat.add_0_r in Hconv.
    assert (Hlt : now w < startingTime + timeout factory) by lia.
    rewrite (pollLoop_success _ _ _ _ w _ Hlt (allInstancesRunning_converged _ Hconv)).
    unfold with_sys, polled, emit. simpl. f_equal. f_equal; [lia|].
    f_equal; [|lia]. rewrite <- app_assoc. reflexivity.
  - pose proof (Hbefore O ltac:(lia)) as H0. rewrite Nat.add_0_r in H0.
    pose proof Second_pos as HS.
    assert (Hlt : now w < startingTime + timeout factory) by lia.
    rewrite (pollLoop_retry _ _ _ _ w _ Hlt (allInstancesRunning_undecided _ H0)).
    rewrite IH; simpl.
    + f_equal. f_equal; [lia| |].
      * rewrite <- app_assoc. reflexivity.
      * f_equal; [|lia]. rewrite <- !app_assoc. reflexivity.
    + intros j Hj. rewrite <- Nat.add_succ_r. apply Hbefore. lia.
    + rewrite <- Nat.add_succ_r. exact Hconv.
    + lia.
Qed.

Lemma pollLoop_undecided (startingTime : Z) (m : nat) (w : World) :
  sleepsLeft (startingTime + timeout factory) (now w) = m ->
  (forall j, (j < m)%nat -> undecided factory appName instances (polls (sys w) + j)) ->
  pollLoop factory (allInstancesRunning factory appName instances) true startingTime w =
  (false,
   {| now := now w + Z.of_nat m * Second;
      pollTimes := (pollTimes w ++ instants (now w) m)%list;
      sys := {| trace := (trace (sys w) ++ waitingPolls appName m ++ [ui_NewLine])%list;
                polls := (polls (sys w) + m)%nat;
                placementErrorOccurred := placementErrorOccurred (sys w) |} |}).
Proof.
  revert w. induction m as [|m IH]; intros w Hm Hall.
  - apply sleepsLeft_O in Hm. rewrite pollLoop_expired by exact Hm.
    unfold with_sys, emit. simpl. f_equal. f_equal; [lia|symmetry; apply app_nil_r|].
    f_equal. lia.
  - apply sleepsLeft_S in Hm as [Hlt Hm].
    pose proof (Hall O ltac:(lia)) as H0. rewrite Nat.add_0_r in H0.
    rewrite (pollLoop_retry _ _ _ _ w _ Hlt (allInstancesRunning_undecided _ H0)).
    rewrite IH; simpl.
    + f_equal. f_equal; [lia| |].
      * rewrite <- app_assoc. reflexivity.
      * f_equal; [|lia]. rewrite <- !app_assoc. reflexivity.
    + exact Hm.
    + intros j Hj. rewrite <- Nat.add_succ_r. apply Hall. lia.
Qed.

(** Among the polls that fit before the deadline, either none decides or
    there is a first one that does. *)
Lemma first_decisive (q n : nat) :
  (forall j, (j < n)%nat -> undecided factory appName instances (q + j)) \/
  exists k, (k < n)%nat /\
            (forall j, (j < k)%nat -> undecided factory appName instances (q + j)) /\
            (snd (answer factory appName (q + k)) = true \/
             converged factory appName instances (q + k)).
Proof.
  revert q. induction n as [|n IH]; intros q.
  - left. intros j Hj. lia.
  - assert (Hdec : undecided factory appName instances q \/
                   snd (answer factory appName q) = true \/
                   converged factory appName instances q).
    { unfold undecided, converged.
      destruct (snd (answer factory appName q)); [auto|].
      destruct (Z.eq_dec (fst (answer factory appName q)) instances); auto. }
    destruct Hdec as [Hq|Hq].
    + destruct (IH (S q)) as [Hall|(k & Hk & Hbefore & Hat)].
      * left. intros [|j] Hj; [rewrite Nat.add_0_r; exact Hq|].
        rewrite Nat.add_succ_r, <- Nat.add_succ_l. apply Hall. lia.
      * right. exists (S k). split; [lia|]. split.
        -- intros [|j] Hj; [rewrite Nat.add_0_r; exact Hq|].
           rewrite Nat.add_succ_r, <- Nat.add_succ_l. apply Hbefore. lia.
        -- rewrite Nat.add_succ_r, <- Nat.add_succ_l. exact Hat.
    + right. exists O. split; [lia|]. split; [intros j Hj; lia|].
      rewrite Nat.add_0_r. exact Hq.
Qed.

End Wait.

Section WaitOutcome.

Variable factory : AppRunnerCommandFactory.
Variable appName : string.
Variable instances : Z.
Variable w : World.

Lemma pollUntilAllInstancesRunning_converged (k : nat) (action : string)
    (events : list Event) :
  (forall j, (j < k)%nat -> undecided factory appName instances (polls (sys w) + j)) ->
  converged factory appName instances (polls (sys w) + k) ->
  Z.of_nat k * Second < timeout factory ->
  pollUntilAllInstancesRunning factory appName instances action
    (with_sys w {| trace := (trace (sys w) ++ events)%list;
                   polls := polls (sys w);
                   placementErrorOccurred := placementErrorOccurred (sys w) |}) =
  (true,
   {| now := now w + Z.of_nat k * Second;
      pollTimes := (pollTimes w ++ instants (now w) (S k))%list;
      sys := {| trace := (trace (sys w) ++ events ++ waitingPolls appName k
                          ++ convergedPoll appName)%list;
                polls := (polls (sys w) + S k)%nat;
                placementErrorOccurred := false |} |}).
Proof.
  intros Hbefore Hconv Htime.
  unfold pollUntilAllInstancesRunning, pollUntilSuccess, bind, lift, clock_Now,
    set_placementErrorOccurred, get_placementErrorOccurred.
  cbn [sys now pollTimes with_sys fst snd trace polls placementErrorOccurred].
  rewrite (pollLoop_converged factory appName instances (now w) k);
    cbn [sys now pollTimes trace polls placementErrorOccurred];
    [|exact Hbefore|exact Hconv|lia].
  unfold ret. cbn [negb sys now pollTimes trace polls placementErrorOccurred].
  f_equal. f_equal. f_equal. rewrite <- !app_assoc. reflexivity.
Qed.

Lemma pollUntilAllInstancesRunning_timedOut (action : string) (events : list Event) :
  (forall j, (j < secondsBegun (timeout factory))%nat ->
             undecided factory appName instances (polls (sys w) + j)) ->
  pollUntilAllInstancesRunning factory appName instances action
    (with_sys w {| trace := (trace (sys w) ++ events)%list;
                   polls := polls (sys w);
                   placementErrorOccurred := placementErrorOccurred (sys w) |}) =
  (false,
   {| now := now w + Z.of_nat (secondsBegun (timeout factory)) * Second;
      pollTimes := (pollTimes w ++ instants (now w) (secondsBegun (timeout factory)))%list;
      sys := {| trace := (trace (sys w) ++ events
                          ++ waitingPolls appName (secondsBegun (timeout factory))
                          ++ timedOut appName action)%list;
                polls := (polls (sys w) + secondsBegun (timeout factory))%nat;
                placementErrorOccurred := false |} |}).
Proof.
  intros Hall.
  unfold pollUntilAllInstancesRunning, pollUntilSuccess, bind, lift, clock_Now,
    set_placementErrorOccurred, get_placementErrorOccurred.
  cbn [sys now pollTimes with_sys fst snd trace polls placementErrorOccurred].
  rewrite (pollLoop_undecided factory appName instances (now w)
             (secondsBegun (timeout factory)));
    cbn [sys now pollTimes trace polls placementErrorOccurred];
    [|apply sleepsLeft_secondsBegun|exact Hall].
  unfold ret, emit. cbn [negb sys now pollTimes trace polls placementErrorOccurred fst snd].
  f_equal. f_equal. f_equal. unfold timedOut. rewrite <- !app_assoc. reflexivity.
Qed.

End WaitOutcome.

Lemma with_sys_id (w : World) :
  with_sys w {| trace := (trace (sys w) ++ [])%list;
                polls := polls (sys w);
                placementErrorOccurred := placementErrorOccurred (sys w) |} = w.
Proof. rewrite app_nil_r. destruct w as [t p [tr q b]]. reflexivity. Qed.

Section Converges.

Variable factory : AppRunnerCommandFactory.
Variable appName : string.
Variable instances : Z.
Variable k : nat.
Variable w : World.

Hypothesis undecided_before :
  forall j, (j < k)%nat -> undecided factory appName instances (polls (sys w) + j).
Hypothesis converged_at : converged factory appName instances (polls (sys w) + k).
Hypothesis in_time : Z.of_nat k * Second < timeout factory.

(** X10: when the poll numbered [k] is made in time and is the first to
    decide, and it reports the requested number of instances without a
    placement error, the wait ends on that poll with no further sleep:
    [pollUntilAllInstancesRunning] returns true and [Exit] is not called;
    [setAppInstances] then says "App Scaled Successfully" as its last word,
    and [createApp] says that the app is running before its URLs. *)
Theorem wait_converges :
  (forall action,
      let r := pollUntilAllInstancesRunning factory appName instances action w in
      fst r = true /\
      trace (sys (snd r)) =
        (trace (sys w) ++ waitingPolls appName k ++ convergedPoll appName)%list /\
      pollTimes (snd r) = (pollTimes w ++ instants (now w) (S k))%list /\
      now (snd r) = now w + Z.of_nat k * Second) /\
  (docker_app_runner.ScaleApp (appRunner factory) appName instances = None ->
   trace (sys (snd (setAppInstances factory appName instances w))) =
     (trace (sys w)
      ++ [runner_ScaleApp appName instances;
          ui_Say ("Scaling " +:+ appName +:+ " to " +:+ strconv.Itoa instances
                  +:+ " instances " +:+ LF)]
      ++ waitingPolls appName k ++ convergedPoll appName
      ++ [ui_Say (colors.Green "App Scaled Successfully")])%list) /\
  (forall sub,
      sub_name sub = appName -> sub_instances sub = instances ->
      trace (sys (snd (createApp_wait factory sub w))) =
        (trace (sys w) ++ [logs_OutputTailedLogs appName] ++ waitingPolls appName k
         ++ convergedPoll appName
         ++ [ui_Say (colors.Green (appName +:+ " is now running." +:+ LF))]
         ++ urlEvents factory sub ++ [logs_StopOutputting])%list).
Proof.
  split; [|split].
  - intros action r. subst r.
    pose proof (pollUntilAllInstancesRunning_converged factory appName instances w k
                  action [] undecided_before converged_at in_time) as H.
    rewrite with_sys_id in H. rewrite H. simpl. auto.
  - intros Hscale.
    unfold setAppInstances, bind, lift, emit.
    cbn [sys now pollTimes trace polls placementErrorOccurred fst snd].
    rewrite Hscale.
    cbn [sys now pollTimes trace polls placementErrorOccurred fst snd].
    rewrite <- app_assoc.
    pose proof (pollUntilAllInstancesRunning_converged factory appName instances w k
                  "scale"
                  ([runner_ScaleApp appName instances] ++
                   [ui_Say ("Scaling " +:+ appName +:+ " to " +:+ strconv.Itoa instances
                            +:+ " instances " +:+ LF)])
                  undecided_before converged_at in_time) as H.
    unfold with_sys in H. rewrite H.
    cbn [sys now pollTimes trace polls placementErrorOccurred fst snd].
    rewrite <- !app_assoc. reflexivity.
  - intros sub Hname Hinst.
    unfold createApp_wait, bind, lift, emit.
    cbn [sys now pollTimes trace polls placementErrorOccurred fst snd].
    rewrite Hname, Hinst.
    pose proof (pollUntilAllInstancesRunning_converged factory appName instances w k
                  "start" [logs_OutputTailedLogs appName]
                  undecided_before converged_at in_time) as H.
    unfold with_sys in H. rewrite H. unfold ret.
    cbn [sys now pollTimes trace polls placementErrorOccurred fst snd].
    match goal with |- context [match sub_routeOverrides sub with _ => _ end ?s] =>
      destruct (createApp_urls_trace factory sub s) as [outcome Ho] end.
    rewrite Hname in Ho. unfold bind, emit, ret in Ho. rewrite Ho.
    cbn [sys now pollTimes trace polls placementErrorOccurred fst snd].
    rewrite <- !app_assoc. reflexivity.
Qed.

End Converges.

Lemma wait_converges_witness :
  trace (sys (snd (setAppInstances (exampleFactory readyRunner 5) "app" 1 epoch))) =
    [runner_ScaleApp "app" 1;
     ui_Say ("Scaling " +:+ "app" +:+ " to " +:+ strconv.Itoa 1 +:+ " instances " +:+ LF);
     runner_RunningAppInstancesInfo "app"; ui_NewLine;
     ui_Say (colors.Green "App Scaled Successfully")].
Proof.
  refine (proj1 (proj2 (wait_converges (exampleFactory readyRunner 5) "app" 1 0 epoch
                          _ _ _)) _).
  - intros j Hj. lia.
  - split; reflexivity.
  - reflexivity.
  - reflexivity.
Defined.

Section TimesOut.

Variable factory : AppRunnerCommandFactory.
Variable appName : string.
Variable instances : Z.
Variable w : World.

Hypothesis never_decided :
  forall j, (j < secondsBegun (timeout factory))%nat ->
            undecided factory appName instances (polls (sys w) + j).

(** X11: when none of the [ceil(timeout / 1s)] polls that fit before the
    deadline decides, [pollUntilAllInstancesRunning] makes them all, a dot
    after each, closes the line, says in red that the app took too long to
    start or scale, and returns false without calling [Exit];
    [setAppInstances] then says nothing more, and [createApp] goes on to
    its URLs without saying that the app is running. *)
Theorem wait_times_out :
  let n := secondsBegun (timeout factory) in
  (forall action,
      let r := pollUntilAllInstancesRunning factory appName instances action w in
      fst r = false /\
      trace (sys (snd r)) =
        (trace (sys w) ++ waitingPolls appName n ++ timedOut appName action)%list /\
      pollTimes (snd r) = (pollTimes w ++ instants (now w) n)%list /\
      now (snd r) = now w + Z.of_nat n * Second) /\
  (docker_app_runner.ScaleApp (appRunner factory) appName instances = None ->
   trace (sys (snd (setAppInstances factory appName instances w))) =
     (trace (sys w)
      ++ [runner_ScaleApp appName instances;
          ui_Say ("Scaling " +:+ appName +:+ " to " +:+ strconv.Itoa instances
                  +:+ " instances " +:+ LF)]
      ++ waitingPolls appName n ++ timedOut appName "scale")%list) /\
  (forall sub,
      sub_name sub = appName -> sub_instances sub = instances ->
      trace (sys (snd (createApp_wait factory sub w))) =
        (trace (sys w) ++ [logs_OutputTailedLogs appName] ++ waitingPolls appName n
         ++ timedOut appName "start"
         ++ urlEvents factory sub ++ [logs_StopOutputting])%list).
Proof.
  intros n. subst n. split; [|split].
  - intros action r. subst r.
    pose proof (pollUntilAllInstancesRunning_timedOut factory appName instances w
                  action [] never_decided) as H.
    rewrite with_sys_id in H. rewrite H. simpl. auto.
  - intros Hscale.
    unfold setAppInstances, bind, lift, emit.
    cbn [sys now pollTimes trace polls placementErrorOccurred fst snd].
    rewrite Hscale.
    cbn [sys now pollTimes trace polls placementErrorOccurred fst snd].
    rewrite <- app_assoc.
    pose proof (pollUntilAllInstancesRunning_timedOut factory appName instances w
                  "scale"
                  ([runner_ScaleApp appName instances] ++
                   [ui_Say ("Scaling " +:+ appName +:+ " to " +:+ strconv.Itoa instances
                            +:+ " instances " +:+ LF)])
                  never_decided) as H.
    unfold with_sys in H. rewrite H.
    cbn [sys now pollTimes trace polls placementErrorOccurred fst snd].
    rewrite <- !app_assoc. reflexivity.
  - intros sub Hname Hinst.
    unfold createApp_wait, bind, lift, emit.
    cbn [sys now pollTimes trace polls placementErrorOccurred fst snd].
    rewrite Hname, Hinst.
    pose proof (pollUntilAllInstancesRunning_timedOut factory appName instances w
                  "start" [logs_OutputTailedLogs appName] never_decided) as H.
    unfold with_sys in H. rewrite H. unfold ret.
    cbn [sys now pollTimes trace polls placementErrorOccurred fst snd].
    match goal with |- context [match sub_routeOverrides sub with _ => _ end ?s] =>
      destruct (createApp_urls_trace factory sub s) as [outcome Ho] end.
    rewrite Hname in Ho. unfold bind, emit, ret in Ho. rewrite Ho.
    cbn [sys now pollTimes trace polls placementErrorOccurred fst snd].
    rewrite <- !app_assoc. reflexivity.
Qed.

End TimesOut.

Lemma wait_times_out_witness :
  trace (sys (snd (setAppInstances (exampleFactory idleRunner 2) "app" 1 epoch))) =
    [runner_ScaleApp "app" 1;
     ui_Say ("Scaling " +:+ "app" +:+ " to " +:+ strconv.Itoa 1 +:+ " instances " +:+ LF);
     runner_RunningAppInstancesInfo "app"; ui_Say ".";
     runner_RunningAppInstancesInfo "app"; ui_Say ".";
     ui_NewLine; ui_SayLine (colors.Red "app took too long to scale.")].
Proof.
  refine (proj1 (proj2 (wait_times_out (exampleFactory idleRunner 2) "app" 1 epoch _)) _).
  - intros j Hj. split; [reflexivity|discriminate].
  - reflexivity.
Defined.

Section Outcome.

Variable factory : AppRunnerCommandFactory.
Variable appName : string.
Variable instances : Z.

Lemma decides_once (q k k' : nat) :
  (forall j, (j < k)%nat -> undecided factory appName instances (q + j)) ->
  ~ undecided factory appName instances (q + k) ->
  (forall j, (j < k')%nat -> undecided factory appName instances (q + j)) ->
  ~ undecided factory appName instances (q + k') ->
  k = k'.
Proof.
  intros Hk Hdk Hk' Hdk'.
  destruct (Nat.lt_trichotomy k k') as [Hlt|[Heq|Hgt]]; [|exact Heq|].
  - exfalso. apply Hdk. apply Hk'. exact Hlt.
  - exfalso. apply Hdk'. apply Hk. exact Hgt.
Qed.

Lemma converged_decides (j : nat) :
  converged factory appName instances j -> ~ undecided factory appName instances j.
Proof. intros [_ H] [_ H']. congruence. Qed.

Lemma placementError_decides (j : nat) :
  snd (answer factory appName j) = true -> ~ undecided factory appName instances j.
Proof. intros H [H' _]. congruence. Qed.

(** X12: [pollUntilAllInstancesRunning] has three outcomes and the cluster's
    answers tell which.  It returns true exactly when the first poll to
    decide, among those that fit before the deadline, reports the requested
    count without a placement error; it calls [Exit(PlacementError)]
    exactly when that first poll reports a placement error; and it says
    that the app took too long exactly when none of those polls decides. *)
Theorem wait_outcome (action : string) (w : World) :
  let q := polls (sys w) in
  let n := secondsBegun (timeout factory) in
  let r := pollUntilAllInstancesRunning factory appName instances action w in
  (fst r = true <->
   firstToDecide factory appName instances q n (converged factory appName instances)) /\
  exists said,
    trace (sys (snd r)) = (trace (sys w) ++ said)%list /\
    (In (exitHandler_Exit exit_codes.PlacementError) said <->
     firstToDecide factory appName instances q n
       (fun j => snd (answer factory appName j) = true)) /\
    (In (ui_SayLine (colors.Red (appName +:+ " took too long to " +:+ action +:+ "."))) said
     <-> forall j, (j < n)%nat -> undecided factory appName instances (q + j)).
Proof.
  intros q n r.
  destruct (first_decisive factory appName instances q n)
    as [Hall|(k & Hk & Hbefore & [Hpe|Hconv])].
  - (* no poll decides *)
    pose proof (pollUntilAllInstancesRunning_timedOut factory appName instances w
                  action [] Hall) as H.
    rewrite with_sys_id in H. subst r. rewrite H. simpl fst. simpl snd. split.
    + split; [discriminate|].
      intros (k & Hk & _ & Hc). exfalso.
      exact (converged_decides _ Hc (Hall k Hk)).
    + eexists. split; [reflexivity|]. split; split.
      * intros Hin. exfalso. simpl in Hin.
        apply in_app_or in Hin as [Hin|Hin].
        -- apply waitingPolls_In in Hin as [?|?]; discriminate.
        -- destruct Hin as [?|[?|[]]]; discriminate.
      * intros (k & Hk & _ & Hp). exfalso.
        exact (placementError_decides _ Hp (Hall k Hk)).
      * intros _. exact Hall.
      * intros _. simpl. apply in_or_app. right. right. left. reflexivity.
  - (* the first decisive poll reports a placement error *)
    apply secondsBegun_lt in Hk as Htime.
    pose proof (pollUntilAllInstancesRunning_fatal factory appName instances k w
                  (fun j Hj => Hbefore j Hj) Hpe Htime action []) as H.
    rewrite with_sys_id in H. subst r. rewrite H. simpl fst. simpl snd. split.
    + split; [discriminate|].
      intros (k' & Hk' & Hbefore' & Hc). exfalso.
      pose proof (decides_once q k k' Hbefore (placementError_decides _ Hpe)
                    Hbefore' (converged_decides _ Hc)) as <-.
      destruct Hc as [Hc _]. congruence.
    + eexists. split; [reflexivity|]. split; split.
      * intros _. exists k. auto.
      * intros _. simpl. apply in_or_app. right. unfold fatalPoll. simpl. auto.
      * intros Hin. exfalso. simpl in Hin.
        apply in_app_or in Hin as [Hin|Hin].
        -- apply waitingPolls_In in Hin as [?|?]; discriminate.
        -- destruct Hin as [?|[?|[?|[?|[]]]]]; discriminate.
      * intros Hall. exfalso. exact (placementError_decides _ Hpe (Hall k Hk)).
  - (* the first decisive poll reports convergence *)
    apply secondsBegun_lt in Hk as Htime.
    pose proof (pollUntilAllInstancesRunning_converged factory appName instances w k
                  action [] Hbefore Hconv Htime) as H.
    rewrite with_sys_id in H. subst r. rewrite H. simpl fst. simpl snd. split.
    + split; [|reflexivity]. intros _. exists k. auto.
    + eexists. split; [reflexivity|]. split; split.
      * intros Hin. exfalso. simpl in Hin.
        apply in_app_or in Hin as [Hin|Hin].
        -- apply waitingPolls_In in Hin as [?|?]; discriminate.
        -- destruct Hin as [?|[?|[]]]; discriminate.
      * intros (k' & Hk' & Hbefore' & Hp). exfalso.
        pose proof (decides_once q k k' Hbefore (converged_decides _ Hconv)
                      Hbefore' (placementError_decides _ Hp)) as <-.
        destruct Hconv as [Hc _]. congruence.
      * intros Hin. exfalso. simpl in Hin.
        apply in_app_or in Hin as [Hin|Hin].
        -- apply waitingPolls_In in Hin as [?|?]; discriminate.
        -- destruct Hin as [?|[?|[]]]; discriminate.
      * intros Hall. exfalso. exact (converged_decides _ Hconv (Hall k Hk)).
Qed.

End Outcome.

(** ** The scale command *)

Lemma Itoa_not_empty (i : Z) : strconv.Itoa i <> EmptyString.
Proof.
  unfold strconv.Itoa. destruct i as [|p|p]; [discriminate|..];
    unfold Z.to_int, NilZero.string_of_int, NilZero.string_of_uint.
  - destruct (to_uint_digits p) as (c & s & Hs & _).
    destruct (Pos.to_uint p); [discriminate|..]; rewrite Hs; discriminate.
  - discriminate.
Qed.

(** X13: [scaleApp] either reports a usage error and does nothing else, or
    hands a non-empty app name and the integer that its second argument
    spells to [setAppInstances]; further arguments are ignored and the
    count is not checked for sign.  In particular, for the decimal text of
    any 64-bit count it behaves as [setAppInstances], and when the cluster
    then refuses the request, the error is said with the count and there is
    no polling: no query, and the clock does not move. *)
Theorem scaleApp_validation (factory : AppRunnerCommandFactory) (w : World) :
  (forall args,
      (exists usage, scaleApp factory args w = (tt, after_event w (ui_IncorrectUsage usage)))
      \/
      (exists instances,
          cli.Get args 0 <> EmptyString /\
          strconv.Atoi (cli.Get args 1) = Some instances /\
          scaleApp factory args w = setAppInstances factory (cli.Get args 0) instances w)) /\
  (forall appName instances more,
      appName <> EmptyString ->
      strconv.minInt <= instances <= strconv.maxInt ->
      scaleApp factory (appName :: strconv.Itoa instances :: more) w =
        setAppInstances factory appName instances w /\
      forall err,
        docker_app_runner.ScaleApp (appRunner factory) appName instances = Some err ->
        scaleApp factory (appName :: strconv.Itoa instances :: more) w =
          (tt, after_events w
                 [runner_ScaleApp appName instances;
                  ui_Say ("Error Scaling App to " +:+ strconv.Itoa instances
                          +:+ " instances: " +:+ err)])).
Proof.
  split.
  - intros args. unfold scaleApp.
    destruct (String.eqb (cli.Get args 0) EmptyString) eqn:Hname; simpl.
    + left. eexists. reflexivity.
    + destruct (String.eqb (cli.Get args 1) EmptyString) eqn:Harg; simpl.
      * left. eexists. reflexivity.
      * destruct (strconv.Atoi (cli.Get args 1)) as [instances|] eqn:Hn.
        -- right. exists instances. apply String.eqb_neq in Hname. auto.
        -- left. eexists. reflexivity.
  - intros appName instances more Hname Hrange.
    assert (Hrun : scaleApp factory (appName :: strconv.Itoa instances :: more) w =
                   setAppInstances factory appName instances w).
    { unfold scaleApp, cli.Get. cbn [nth].
      apply String.eqb_neq in Hname. rewrite Hname.
      pose proof (Itoa_not_empty instances) as Hi. apply String.eqb_neq in Hi. rewrite Hi.
      simpl. rewrite Atoi_Itoa by exact Hrange. reflexivity. }
    split; [exact Hrun|]. intros err Herr. rewrite Hrun.
    unfold setAppInstances, bind, lift, emit.
    cbn [sys now pollTimes trace polls placementErrorOccurred fst snd].
    rewrite Herr. unfold after_events, with_sys.
    cbn [sys now pollTimes trace polls placementErrorOccurred fst snd].
    rewrite <- app_assoc. reflexivity.
Qed.

Lemma scaleApp_validation_witness :
  scaleApp (exampleFactory idleRunner 2) ["app"; strconv.Itoa (-3); "more"] epoch =
  setAppInstances (exampleFactory idleRunner 2) "app" (-3) epoch.
Proof.
  refine (proj1 (proj2 (scaleApp_validation (exampleFactory idleRunner 2) epoch)
                   "app" (-3) ["more"] _ _)).
  - discriminate.
  - unfold strconv.minInt, strconv.maxInt. lia.
Defined.

(** ** The create command, further *)

(** [getPortConfigFromArgs] only says things: its result does not depend on
    what was said before, and its effect is to say more. *)
Lemma getPortConfigFromArgs_framed (factory : AppRunnerCommandFactory)
    (portsFlag : string) (monitoredPortFlag : Z) (noMonitorFlag : bool)
    (imageMetadata : docker_metadata_fetcher.ImageMetadata) (s : Sys) :
  getPortConfigFromArgs factory portsFlag monitoredPortFlag noMonitorFlag imageMetadata s =
  (result_of (getPortConfigFromArgs factory portsFlag monitoredPortFlag noMonitorFlag
                imageMetadata),
   saying s (said_by (getPortConfigFromArgs factory portsFlag monitoredPortFlag
                        noMonitorFlag imageMetadata))).
Proof.
  unfold result_of, said_by, saying, getPortConfigFromArgs.
  destruct (String.eqb portsFlag EmptyString
            && negb (docker_app_runner.IsEmpty (docker_metadata_fetcher.Ports imageMetadata)));
    [reflexivity|].
  destruct (String.eqb portsFlag EmptyString
            && docker_app_runner.IsEmpty (docker_metadata_fetcher.Ports imageMetadata)
            && noMonitorFlag);
    [unfold ret; simpl; rewrite app_nil_r; destruct s; reflexivity|].
  destruct (String.eqb portsFlag EmptyString
            && docker_app_runner.IsEmpty (docker_metadata_fetcher.Ports imageMetadata));
    [reflexivity|].
  destruct ((1 <? length (strings.Split portsFlag ","))%nat && (monitoredPortFlag =? 0)
            && negb noMonitorFlag);
    [unfold ret; simpl; rewrite app_nil_r; destruct s; reflexivity|].
  destruct (convertPorts (sort.Strings (strings.Split portsFlag ",")) []);
    unfold ret; simpl; rewrite app_nil_r; destruct s; reflexivity.
Qed.

(** It says at most one thing, and that is a plain [Say]. *)
Lemma getPortConfigFromArgs_says (factory : AppRunnerCommandFactory)
    (portsFlag : string) (monitoredPortFlag : Z) (noMonitorFlag : bool)
    (imageMetadata : docker_metadata_fetcher.ImageMetadata) (e : Event) :
  In e (said_by (getPortConfigFromArgs factory portsFlag monitoredPortFlag noMonitorFlag
                   imageMetadata)) ->
  exists message, e = ui_Say message.
Proof.
  unfold said_by, getPortConfigFromArgs.
  destruct (String.eqb portsFlag EmptyString
            && negb (docker_app_runner.IsEmpty (docker_metadata_fetcher.Ports imageMetadata)));
    [simpl; intros [<-|[]]; eauto|].
  destruct (String.eqb portsFlag EmptyString
            && docker_app_runner.IsEmpty (docker_metadata_fetcher.Ports imageMetadata)
            && noMonitorFlag); [intros []|].
  destruct (String.eqb portsFlag EmptyString
            && docker_app_runner.IsEmpty (docker_metadata_fetcher.Ports imageMetadata));
    [simpl; intros [<-|[]]; eauto|].
  destruct ((1 <? length (strings.Split portsFlag ","))%nat && (monitoredPortFlag =? 0)
            && negb noMonitorFlag); [intros []|].
  destruct (convertPorts (sort.Strings (strings.Split portsFlag ",")) []); intros [].
Qed.

Lemma saying_nil (s : Sys) : saying s [] = s.
Proof. unfold saying. rewrite app_nil_r. destruct s. reflexivity. Qed.

Lemma saying_saying (s : Sys) (a b : list Event) :
  saying (saying s a) b = saying s (a ++ b)%list.
Proof. unfold saying. simpl. rewrite app_assoc. reflexivity. Qed.

Lemma framed_ret {A} (a : A) : framed (ret (S := Sys) a).
Proof. intros s. unfold result_of, said_by, ret. simpl. rewrite saying_nil. reflexivity. Qed.

Lemma framed_emit (e : Event) : framed (emit e).
Proof. intros s. reflexivity. Qed.

Lemma framed_bind {A B} (m : State Sys A) (k : A -> State Sys B) :
  framed m -> (forall a, framed (k a)) -> framed (bind m k).
Proof.
  intros Hm Hk s. unfold result_of, said_by, bind.
  rewrite (Hm s), (Hm emptySys).
  rewrite (Hk (result_of m) (saying s (said_by m))).
  rewrite (Hk (result_of m) (saying emptySys (said_by m))).
  simpl. rewrite saying_saying. reflexivity.
Qed.

Lemma said_by_bind {A B} (m : State Sys A) (k : A -> State Sys B) :
  framed m -> (forall a, framed (k a)) ->
  said_by (bind m k) = (said_by m ++ said_by (k (result_of m)))%list /\
  result_of (bind m k) = result_of (k (result_of m)).
Proof.
  intros Hm Hk.
  split; [unfold said_by at 1|unfold result_of at 1]; unfold bind;
    rewrite (Hm emptySys);
    rewrite (Hk (result_of m) (saying emptySys (said_by m))); reflexivity.
Qed.

Ltac frame :=
  repeat first
    [ apply framed_ret
    | apply framed_emit
    | apply framed_bind; [|intros]
    | match goal with
      | |- framed (getPortConfigFromArgs _ _ _ _ _) =>
          intros ?; apply getPortConfigFromArgs_framed
      | |- framed (match ?x with _ => _ end) => destruct x
      end ].

(** The same holds of [createApp] up to its submission: what it returns and
    what it says and asks do not depend on what was said before. *)
Lemma createApp_submit_framed (factory : AppRunnerCommandFactory) (context : cli.Context) :
  framed (createApp_submit factory context).
Proof. unfold createApp_submit. frame. Qed.

Lemma uint_out_of_range (cpuWeight : Z) :
  strconv.minInt <= cpuWeight <= strconv.maxInt ->
  cpuWeight < 1 \/ 100 < cpuWeight ->
  uint cpuWeight < 1 \/ 100 < uint cpuWeight.
Proof.
  unfold strconv.minInt, strconv.maxInt, uint. intros Hrange Hcpu.
  destruct (Z_lt_dec cpuWeight 0) as [Hneg|Hpos].
  - right. rewrite <- (Z_mod_plus_full cpuWeight 1 (2 ^ 64)).
    rewrite Z.mod_small; lia.
  - rewrite Z.mod_small by lia. lia.
Qed.

(** X14: the three usage errors of [createApp] end the command on the
    spot: with fewer than two arguments, with a start command that is not
    preceded by ["--"], or with two to four arguments and a CPU weight (a
    64-bit [int], read as a [uint]) outside 1..100, all that [createApp]
    does is one [IncorrectUsage]: no metadata fetch, no cluster call, and
    the clock does not move. *)
Theorem createApp_usage (factory : AppRunnerCommandFactory) (context : cli.Context)
    (w : World) :
  let args := cli.Args context in
  ((length args < 2)%nat ->
   createApp factory context w =
   (Returned, after_event w (ui_IncorrectUsage "APP_NAME and DOCKER_IMAGE are required"))) /\
  ((2 <= length args)%nat -> cli.Get args 3 <> EmptyString -> cli.Get args 2 <> "--" ->
   createApp factory context w =
   (Returned, after_event w (ui_IncorrectUsage "'--' Required before start command"))) /\
  ((2 <= length args <= 4)%nat ->
   cli.Get args 3 = EmptyString \/ cli.Get args 2 = "--" ->
   strconv.minInt <= cli.cpu_weight context <= strconv.maxInt ->
   cli.cpu_weight context < 1 \/ 100 < cli.cpu_weight context ->
   createApp factory context w =
   (Returned, after_event w (ui_IncorrectUsage "Invalid CPU Weight"))).
Proof.
  intros args.
  assert (Husage : forall usage,
             createApp_switch args (cli.Get args 3) (cli.Get args 2)
               (uint (cli.cpu_weight context)) = inl usage ->
             createApp factory context w =
             (Returned, after_event w (ui_IncorrectUsage usage))).
  { intros usage Hsw. unfold createApp, bind, lift, createApp_submit.
    fold args. rewrite Hsw. reflexivity. }
  split; [|split].
  - intros Hlen. apply Husage. unfold createApp_switch.
    destruct (Nat.ltb_spec (length args) 2); [reflexivity|lia].
  - intros Hlen Hcmd Hsep. apply Husage. unfold createApp_switch.
    destruct (Nat.ltb_spec (length args) 2); [lia|].
    apply String.eqb_neq in Hcmd, Hsep. rewrite Hcmd, Hsep. reflexivity.
  - intros Hlen Hsep Hrange Hcpu. apply Husage.
    apply createApp_switch_short; [exact Hlen|exact Hsep|].
    apply uint_out_of_range; assumption.
Qed.

Lemma createApp_usage_witness :
  createApp (exampleFactory idleRunner 2) (weightlessContext []) epoch =
  (Returned, after_event epoch (ui_IncorrectUsage "Invalid CPU Weight")).
Proof.
  refine (proj2 (proj2 (createApp_usage (exampleFactory idleRunner 2)
                          (weightlessContext []) epoch)) _ _ _ _).
  - simpl. lia.
  - right. reflexivity.
  - unfold strconv.minInt, strconv.maxInt. simpl. lia.
  - left. simpl. lia.
Defined.

Lemma createApp_switch_inr (args : list string) (startCommand terminator : string)
    (cpuWeightFlag : Z) (appArgs : list string) :
  createApp_switch args startCommand terminator cpuWeightFlag = inr appArgs ->
  appArgs = drop 4 args.
Proof.
  unfold createApp_switch.
  destruct (length args <? 2)%nat; [discriminate|].
  destruct (negb (String.eqb startCommand EmptyString) && negb (String.eqb terminator "--"));
    [discriminate|].
  destruct (Nat.ltb_spec 4 (length args)) as [Hlong|Hshort]; [congruence|].
  destruct ((cpuWeightFlag <? 1) || (100 <? cpuWeightFlag)); [discriminate|].
  intros [= <-]. symmetry. apply drop_ge. lia.
Qed.

(** X15: what a successful submission has done.  The image metadata was
    fetched first and without error, the ports, the start command and the
    routes were resolved without error, and the one request sent to the
    cluster, right before "Creating App", carries what was resolved: the
    working directory from the flag, else from the image, else ["/"]; the
    start command and arguments from the command line, else from the
    image; the PortConfig of [getPortConfigFromArgs]; the parsed routes;
    the environment of [buildEnvironment]; and the CPU weight as a
    [uint].  Between the fetch and the request only plain [Say]s
    happen. *)
Theorem createApp_request (factory : AppRunnerCommandFactory) (context : cli.Context)
    (s s' : Sys) (sub : Submitted) :
  createApp_submit factory context s = (Some sub, s') ->
  exists imageMetadata portConfig command between,
    dockerMetadataFetcher factory (cli.Get (cli.Args context) 1) = inl imageMetadata /\
    result_of (getPortConfigFromArgs factory (cli.ports context)
                 (cli.monitored_port context) (cli.no_monitor context) imageMetadata)
      = (portConfig, None) /\
    resolvedCommand (cli.Args context) imageMetadata = Some command /\
    parseRouteOverrides (cli.routes context) = (sub_routeOverrides sub, None) /\
    let params := requestOf factory context imageMetadata portConfig command
                    (sub_routeOverrides sub) in
    docker_app_runner.CreateDockerApp (appRunner factory) params = None /\
    s' = saying s
           (fetcher_FetchMetadata (cli.Get (cli.Args context) 1)
            :: between ++
            [runner_CreateDockerApp params;
             ui_Say ("Creating App: " +:+ cli.Get (cli.Args context) 0 +:+ LF)])%list /\
    forall e, In e between -> exists message, e = ui_Say message.
Proof.
  intros Hrun. rewrite createApp_submit_framed in Hrun.
  injection Hrun as Hresult <-.
  change (said_by (createApp_submit factory context))
    with (trace (snd (createApp_submit factory context emptySys))).
  unfold result_of in Hresult.
  destruct (createApp_submit factory context emptySys) as [r s0] eqn:H0.
  simpl in Hresult. subst r. simpl snd.
  unfold createApp_submit, bind in H0.
  destruct (createApp_switch _ _ _ _) as [usage|appArgs] eqn:Hsw; [discriminate|].
  apply createApp_switch_inr in Hsw. subst appArgs.
  destruct (dockerMetadataFetcher factory _) as [imageMetadata|err] eqn:Hfetch;
    [|discriminate].
  unfold emit at 1 in H0. cbn beta iota zeta in H0.
  rewrite getPortConfigFromArgs_framed in H0.
  pose proof (getPortConfigFromArgs_says factory (cli.ports context)
                (cli.monitored_port context) (cli.no_monitor context) imageMetadata)
    as Hsays.
  destruct (result_of (getPortConfigFromArgs factory (cli.ports context)
              (cli.monitored_port context) (cli.no_monitor context) imageMetadata))
    as [portConfig [err|]] eqn:Hports; [discriminate|].
  set (portsSaid := said_by _) in *. clearbody portsSaid.
  exists imageMetadata, portConfig.
  unfold resolvedCommand, requestOf, resolvedWorkingDir.
  unfold emit, ret, saying in H0. cbn beta iota zeta in H0.
  cbn [trace polls placementErrorOccurred emptySys app] in H0.
  destruct (String.eqb (cli.working_dir context) EmptyString);
    destruct (String.eqb (docker_metadata_fetcher.WorkingDir imageMetadata) EmptyString);
    destruct (cli.no_monitor context);
    destruct (String.eqb (cli.Get (cli.Args context) 3) EmptyString);
    try destruct (docker_metadata_fetcher.StartCommand imageMetadata) as [|first others];
    cbn beta iota zeta in H0;
    cbn [negb trace polls placementErrorOccurred] in H0;
    try (exfalso; clear -H0; congruence);
    destruct (parseRouteOverrides (cli.routes context)) as [routeOverrides [err|]];
    try (exfalso; clear -H0; congruence);
    match type of H0 with
    | context [docker_app_runner.CreateDockerApp ?r ?p] =>
        destruct (docker_app_runner.CreateDockerApp r p) eqn:Hcreate
    end;
    try (exfalso; clear -H0; congruence);
    injection H0 as <- <-;
    rewrite <- !app_assoc; cbn [app sub_routeOverrides trace fst snd negb];
    eexists (_, _);
    match goal with
    | |- context [saying s (_ :: (portsSaid ++ ?l)%list)] =>
        let b := eval cbn [removelast] in (removelast (removelast l)) in
        exists (portsSaid ++ b)%list
    end;
    (split; [reflexivity|]); (split; [exact Hports|]); (split; [reflexivity|]);
    (split; [reflexivity|]); (split; [exact Hcreate|]);
    (split;
     [rewrite <- app_assoc; reflexivity
     |intros e He; apply in_app_or in He as [He|He];
      [apply Hsays; exact He
      |cbn [In] in He;
       repeat (destruct He as [<-|He]; [eexists; reflexivity|]); destruct He]]).
Qed.

Lemma createApp_request_witness :
  exists imageMetadata portConfig command between,
    dockerMetadataFetcher (exampleFactory readyRunner 2)
      (cli.Get (cli.Args exampleContext) 1) = inl imageMetadata /\
    result_of (getPortConfigFromArgs (exampleFactory readyRunner 2) (cli.ports exampleContext)
                 (cli.monitored_port exampleContext) (cli.no_monitor exampleContext)
                 imageMetadata)
      = (portConfig, None) /\
    resolvedCommand (cli.Args exampleContext) imageMetadata = Some command /\
    parseRouteOverrides (cli.routes exampleContext)
      = (sub_routeOverrides exampleSubmitted, None) /\
    let params := requestOf (exampleFactory readyRunner 2) exampleContext imageMetadata
                    portConfig command (sub_routeOverrides exampleSubmitted) in
    docker_app_runner.CreateDockerApp (appRunner (exampleFactory readyRunner 2)) params
      = None /\
    snd (createApp_submit (exampleFactory readyRunner 2) exampleContext emptySys) =
      saying emptySys
           (fetcher_FetchMetadata (cli.Get (cli.Args exampleContext) 1)
            :: between ++
            [runner_CreateDockerApp params;
             ui_Say ("Creating App: " +:+ cli.Get (cli.Args exampleContext) 0 +:+ LF)])%list /\
    forall e, In e between -> exists message, e = ui_Say message.
Proof.
  apply (createApp_request (exampleFactory readyRunner 2) exampleContext emptySys
           (snd (createApp_submit (exampleFactory readyRunner 2) exampleContext emptySys))
           exampleSubmitted).
  reflexivity.
Defined.

(** X16: a create that cannot be resolved never reaches the cluster.  When
    the metadata fetch fails, or the ports do not resolve, or no start
    command is given and the image declares none, or the routes are
    malformed, [createApp] returns having only said things (and read the
    metadata): no [CreateDockerApp], no log streaming, no poll, and the
    clock does not move. *)
Theorem createApp_aborts_quietly (factory : AppRunnerCommandFactory)
    (context : cli.Context) (w : World) :
  ((exists err, dockerMetadataFetcher factory (cli.Get (cli.Args context) 1) = inr err) \/
   (exists imageMetadata,
       dockerMetadataFetcher factory (cli.Get (cli.Args context) 1) = inl imageMetadata /\
       (snd (result_of (getPortConfigFromArgs factory (cli.ports context)
                          (cli.monitored_port context) (cli.no_monitor context)
                          imageMetadata)) <> None \/
        resolvedCommand (cli.Args context) imageMetadata = None \/
        snd (parseRouteOverrides (cli.routes context)) <> None))) ->
  exists said,
    createApp factory context w = (Returned, after_events w said) /\
    forall e, In e said -> quietEvent e = true.
Proof.
  intros Hfail. exists (said_by (createApp_submit factory context)).
  unfold createApp, bind, lift. rewrite createApp_submit_framed.
  change (said_by (createApp_submit factory context))
    with (trace (snd (createApp_submit factory context emptySys))).
  unfold result_of.
  destruct (createApp_submit factory context emptySys) as [r s0] eqn:H0.
  cbn [fst snd].
  cut (r = None /\ forall e, In e (trace s0) -> quietEvent e = true).
  { intros [-> Hquiet]. split; [reflexivity|exact Hquiet]. }
  unfold createApp_submit, bind in H0.
  destruct (createApp_switch _ _ _ _) as [usage|appArgs] eqn:Hsw.
  { injection H0 as <- <-. split; [reflexivity|].
    intros e [<-|[]]. reflexivity. }
  destruct (dockerMetadataFetcher factory _) as [imageMetadata|err] eqn:Hfetch.
  2:{ injection H0 as <- <-. split; [reflexivity|].
      intros e [<-|[<-|[]]]; reflexivity. }
  destruct Hfail as [[err Herr]|(md & Hmd & Hfail)]; [discriminate|].
  injection Hmd as <-.
  unfold emit at 1 in H0. cbn beta iota zeta in H0.
  rewrite getPortConfigFromArgs_framed in H0.
  pose proof (getPortConfigFromArgs_says factory (cli.ports context)
                (cli.monitored_port context) (cli.no_monitor context) imageMetadata)
    as Hsays.
  destruct (result_of (getPortConfigFromArgs factory (cli.ports context)
              (cli.monitored_port context) (cli.no_monitor context) imageMetadata))
    as [portConfig [err|]] eqn:Hports.
  { set (portsSaid := said_by _) in *. clearbody portsSaid.
    unfold emit, ret, saying in H0. cbn beta iota zeta in H0.
    cbn [trace polls placementErrorOccurred emptySys app] in H0.
    injection H0 as <- <-. split; [reflexivity|].
    cbn [trace]. intros e [<-|He]; [reflexivity|].
    apply in_app_or in He as [He|[<-|[]]]; [|reflexivity].
    destruct (Hsays e He) as [m ->]. reflexivity. }
  set (portsSaid := said_by _) in *. clearbody portsSaid.
  destruct Hfail as [Hfail|Hfail]; [exfalso; apply Hfail; reflexivity|].
  unfold resolvedCommand in Hfail.
  assert (Hquiet : forall l : list Event,
             (forall e, In e l -> quietEvent e = true) ->
             forall e, In e (fetcher_FetchMetadata (cli.Get (cli.Args context) 1)
                             :: portsSaid ++ l)%list -> quietEvent e = true).
  { intros l Hl e [<-|He]; [reflexivity|].
    apply in_app_or in He as [He|He]; [|auto].
    destruct (Hsays e He) as [m ->]. reflexivity. }
  unfold emit, ret, saying in H0. cbn beta iota zeta in H0.
  cbn [trace polls placementErrorOccurred emptySys app] in H0.
  destruct (String.eqb (cli.working_dir context) EmptyString);
    destruct (negb (String.eqb (docker_metadata_fetcher.WorkingDir imageMetadata)
                      EmptyString));
    destruct (negb (cli.no_monitor context));
    destruct (String.eqb (cli.Get (cli.Args context) 3) EmptyString);
    try destruct (docker_metadata_fetcher.StartCommand imageMetadata) as [|first others];
    cbn beta iota zeta in H0;
    cbn [trace polls placementErrorOccurred] in H0;
    try (injection H0 as <- <-; split; [reflexivity|];
         cbn [trace]; rewrite <- !app_assoc; cbn [app]; apply Hquiet;
         cbn [In]; intros e He;
         repeat (destruct He as [<-|He]; [reflexivity|]); destruct He);
    (destruct Hfail as [Hfail|Hfail]; [discriminate|]);
    destruct (parseRouteOverrides (cli.routes context)) as [routeOverrides [err|]];
    try (exfalso; apply Hfail; reflexivity);
    injection H0 as <- <-; (split; [reflexivity|]);
    cbn [trace]; rewrite <- !app_assoc; cbn [app]; apply Hquiet;
    cbn [In]; intros e He;
    repeat (destruct He as [<-|He]; [reflexivity|]); destruct He.
Qed.

Lemma createApp_aborts_quietly_witness :
  exists said,
    createApp (exampleFactory idleRunner 2) malformedContext epoch =
      (Returned, after_events epoch said) /\
    forall e, In e said -> quietEvent e = true.
Proof.
  apply (createApp_aborts_quietly (exampleFactory idleRunner 2) malformedContext epoch).
  right. exists noMetadata. split; [reflexivity|]. right. right. discriminate.
Defined.

(** The URL loop panics exactly on a piece without a colon. *)
Lemma sayRouteUrls_outcome (factory : AppRunnerCommandFactory) (routes : list string)
    (s : Sys) :
  fst (sayRouteUrls factory routes s) = Panicked <->
  exists piece, In piece routes /\ strings.contains ":" piece = false.
Proof.
  revert s. induction routes as [|route rest IH]; intros s; simpl.
  - split; [discriminate|intros (p & [] & _)].
  - rewrite (Split_unfold ":" route).
    destruct (strings.contains ":" route) eqn:Hc.
    + rewrite (Split_unfold ":" (strings.after ":" route)).
      unfold bind, emit. rewrite IH. split.
      * intros (p & Hp & Hn). exists p. auto.
      * intros (p & [<-|Hp] & Hn); [congruence|]. exists p. auto.
    + split; [|reflexivity]. intros _. exists route. auto.
Qed.

(** X17: after a successful submission, [createApp] panics on an index out
    of range exactly when the routes flag gave at least one override and has
    an empty comma-separated piece (a leading, trailing or doubled comma),
    which [parseRouteOverrides] had skipped; otherwise it returns.  Either
    way the deferred [StopOutputting] is the last call made. *)
Theorem createApp_panics (factory : AppRunnerCommandFactory) (context : cli.Context)
    (w : World) (sub : Submitted) (s : Sys) :
  createApp_submit factory context (sys w) = (Some sub, s) ->
  (fst (createApp factory context w) = Panicked <->
   sub_routeOverrides sub <> [] /\
   In EmptyString (strings.Split (cli.routes context) ",")) /\
  exists before,
    trace (sys (snd (createApp factory context w))) = (before ++ [logs_StopOutputting])%list.
Proof.
  intros Hsub.
  pose proof (createApp_submit_Some _ _ _ _ _ Hsub) as (_ & _ & Hflag & Hparse).
  unfold parseRouteOverrides in Hparse.
  apply parseRouteOverrides_range_success in Hparse as [_ Hwf].
  assert (Hurls : forall s1 : Sys,
             fst (sayRouteUrls factory (strings.Split (cli.routes context) ",") s1)
             = Panicked <-> In EmptyString (strings.Split (cli.routes context) ",")).
  { intros s1. rewrite sayRouteUrls_outcome. split.
    - intros (piece & Hin & Hc).
      destruct (String.eqb piece EmptyString) eqn:He.
      + apply String.eqb_eq in He. subst piece. exact Hin.
      + apply String.eqb_neq in He. destruct (Hwf piece Hin He) as [Hcolon _].
        congruence.
    - intros Hin. exists EmptyString. split; [exact Hin|reflexivity]. }
  unfold createApp, bind, lift. rewrite Hsub.
  cbn beta iota zeta.
  unfold createApp_wait, bind, lift, emit, ret.
  cbn beta iota zeta.
  cbn [sys now pollTimes trace polls placementErrorOccurred fst snd].
  match goal with |- context [pollUntilAllInstancesRunning ?f ?n ?i ?a ?w0] =>
    destruct (pollUntilAllInstancesRunning f n i a w0) as [ok w1] end.
  rewrite Hflag.
  destruct (sub_routeOverrides sub) as [|o os].
  - destruct ok; cbn beta iota zeta;
      cbn [sys now pollTimes trace polls placementErrorOccurred fst snd];
      (split; [split; [discriminate|intros [H _]; congruence]|eauto]).
  - destruct ok; cbn beta iota zeta;
      cbn [sys now pollTimes trace polls placementErrorOccurred fst snd];
      match goal with |- context [sayRouteUrls ?f ?r ?s1] =>
        specialize (Hurls s1); destruct (sayRouteUrls f r s1) as [outcome s2]
      end;
      cbn [fst snd] in *; cbn beta iota zeta;
      cbn [sys now pollTimes trace polls placementErrorOccurred fst snd];
      (split; [rewrite Hurls; split; [intros H; split; [discriminate|exact H]
                                     |intros [_ H]; exact H]
              |eauto]).
Qed.

Lemma createApp_panics_witness :
  fst (createApp (exampleFactory readyRunner 2) trailingCommaContext epoch) = Panicked.
Proof.
  apply (proj1 (createApp_panics (exampleFactory readyRunner 2) trailingCommaContext epoch
                  {| sub_name := "app"; sub_instances := 1; sub_routesFlag := "80:web,";
                     sub_routeOverrides :=
                       [{| docker_app_runner.HostnamePrefix := "web";
                           docker_app_runner.Port := 80 |}] |}
                  (snd (createApp_submit (exampleFactory readyRunner 2)
                          trailingCommaContext (sys epoch)))
                  eq_refl)).
  split; [discriminate|]. simpl. auto.
Defined.

(** ** The update-routes and remove commands *)

(** X18: [updateAppRoutes], given an app name and a non-empty route string,
    asks the cluster for nothing when a segment is malformed (it says
    [MalformedRouteErrorMessage], whatever the cluster would have
    answered), and otherwise asks it to set exactly the overrides of the
    non-empty segments, in order; a string of commas only asks for the
    empty list.  It then says the cluster's error or that the routes are
    being updated, and never waits. *)
Theorem updateAppRoutes_request (lifecycle : AppLifecycle) (appName routes : string)
    (more : list string) (s : Sys) :
  appName <> EmptyString -> routes <> EmptyString ->
  ((exists route, In route (strings.Split routes ",") /\ route <> EmptyString /\
                  ~ wellFormedRoute route) ->
   updateAppRoutes lifecycle (appName :: routes :: more) s =
   (tt, saying s [ui_Say MalformedRouteErrorMessage])) /\
  ((forall route, In route (strings.Split routes ",") -> route <> EmptyString ->
                  wellFormedRoute route) ->
   updateAppRoutes lifecycle (appName :: routes :: more) s =
   (tt, saying s
          [ui_Say
             match UpdateAppRoutes lifecycle appName
                     (map routeOf (List.filter nonEmpty (strings.Split routes ","))) with
             | Some err => "Error updating routes: " +:+ err
             | None =>
                 "Updating " +:+ appName
                 +:+ " routes. You can check this app's current routes by running 'ltc status "
                 +:+ appName +:+ "'"
             end])).
Proof.
  intros Hname Hroutes.
  apply String.eqb_neq in Hname, Hroutes.
  unfold updateAppRoutes, cli.Get. cbn [nth]. rewrite Hname, Hroutes. cbn [orb].
  split.
  - intros (bad & Hin & Hne & Hbad). unfold parseRouteOverrides.
    rewrite (parseRouteOverrides_range_malformed _ [] bad Hin Hne Hbad). reflexivity.
  - intros Hwf. unfold parseRouteOverrides.
    rewrite parseRouteOverrides_range_wellFormed by exact Hwf. cbn [app].
    destruct (UpdateAppRoutes lifecycle appName _); reflexivity.
Qed.

Lemma updateAppRoutes_request_witness :
  updateAppRoutes slowRemoval ["app"; ","] emptySys =
  (tt, saying emptySys
         [ui_Say ("Updating " +:+ "app"
                  +:+ " routes. You can check this app's current routes by running 'ltc status "
                  +:+ "app" +:+ "'")]).
Proof.
  refine (proj2 (updateAppRoutes_request slowRemoval "app" "," [] emptySys _ _) _).
  - discriminate.
  - discriminate.
  - intros route [<-|[<-|[]]] Hne; congruence.
Defined.

Section Removal.

Variable factory : AppRunnerCommandFactory.
Variable lifecycle : AppLifecycle.
Variable appName : string.

Lemma appRemoved_gone (s : Sys) :
  gone lifecycle appName (polls s) ->
  appRemoved lifecycle appName s =
  (true, {| trace := trace s; polls := S (polls s);
            placementErrorOccurred := placementErrorOccurred s |}).
Proof. unfold gone, appRemoved. intros ->. reflexivity. Qed.

Lemma appRemoved_not_gone (s : Sys) :
  ~ gone lifecycle appName (polls s) ->
  appRemoved lifecycle appName s =
  (false, {| trace := trace s; polls := S (polls s);
             placementErrorOccurred := placementErrorOccurred s |}).
Proof.
  unfold gone, appRemoved. intros Hn.
  destruct (AppExists lifecycle appName (polls s)) as [[|] [err|]]; try reflexivity.
  exfalso. apply Hn. reflexivity.
Qed.

Lemma pollLoop_removed (startingTime : Z) (k : nat) (w : World) :
  (forall j, (j < k)%nat -> ~ gone lifecycle appName (polls (sys w) + j)) ->
  gone lifecycle appName (polls (sys w) + k) ->
  now w + Z.of_nat k * Second < startingTime + timeout factory ->
  pollLoop factory (appRemoved lifecycle appName) true startingTime w =
  (true,
   {| now := now w + Z.of_nat k * Second;
      pollTimes := (pollTimes w ++ instants (now w) (S k))%list;
      sys := {| trace := (trace (sys w) ++ repeat (ui_Say ".") k ++ [ui_NewLine])%list;
                polls := (polls (sys w) + S k)%nat;
                placementErrorOccurred := placementErrorOccurred (sys w) |} |}).
Proof.
  revert w. induction k as [|k IH]; intros w Hbefore Hgone Htime.
  - rewrite Nat.add_0_r in Hgone.
    assert (Hlt : now w < startingTime + timeout factory) by lia.
    rewrite (pollLoop_success _ _ _ _ w _ Hlt (appRemoved_gone _ Hgone)).
    unfold with_sys, polled, emit. simpl. f_equal. f_equal; [lia|].
    f_equal. lia.
  - pose proof (Hbefore O ltac:(lia)) as H0. rewrite Nat.add_0_r in H0.
    pose proof Second_pos as HS.
    assert (Hlt : now w < startingTime + timeout factory) by lia.
    rewrite (pollLoop_retry _ _ _ _ w _ Hlt (appRemoved_not_gone _ H0)).
    rewrite IH; simpl.
    + f_equal. f_equal; [lia| |].
      * rewrite <- app_assoc. reflexivity.
      * f_equal; [|lia]. rewrite <- !app_assoc. reflexivity.
    + intros j Hj. rewrite <- Nat.add_succ_r. apply Hbefore. lia.
    + rewrite <- Nat.add_succ_r. exact Hgone.
    + lia.
Qed.

Lemma pollLoop_not_removed (startingTime : Z) (m : nat) (w : World) :
  sleepsLeft (startingTime + timeout factory) (now w) = m ->
  (forall j, (j < m)%nat -> ~ gone lifecycle appName (polls (sys w) + j)) ->
  pollLoop factory (appRemoved lifecycle appName) true startingTime w =
  (false,
   {| now := now w + Z.of_nat m * Second;
      pollTimes := (pollTimes w ++ instants (now w) m)%list;
      sys := {| trace := (trace (sys w) ++ repeat (ui_Say ".") m ++ [ui_NewLine])%list;
                polls := (polls (sys w) + m)%nat;
                placementErrorOccurred := placementErrorOccurred (sys w) |} |}).
Proof.
  revert w. induction m as [|m IH]; intros w Hm Hall.
  - apply sleepsLeft_O in Hm. rewrite pollLoop_expired by exact Hm.
    unfold with_sys, emit. simpl. f_equal. f_equal; [lia|symmetry; apply app_nil_r|].
    f_equal. lia.
  - apply sleepsLeft_S in Hm as [Hlt Hm].
    pose proof (Hall O ltac:(lia)) as H0. rewrite Nat.add_0_r in H0.
    rewrite (pollLoop_retry _ _ _ _ w _ Hlt (appRemoved_not_gone _ H0)).
    rewrite IH; simpl.
    + f_equal. f_equal; [lia| |].
      * rewrite <- app_assoc. reflexivity.
      * f_equal; [|lia]. rewrite <- !app_assoc. reflexivity.
    + exact Hm.
    + intros j Hj. rewrite <- Nat.add_succ_r. apply Hall. lia.
Qed.

(** X19: once the cluster has accepted the removal, [removeApp] succeeds
    exactly on the first poll, made before the deadline, that finds the app
    gone with no error: it has said "Removing", a dot per earlier poll, a
    new line and the success in green, and it has not slept after that
    poll.  A poll that ends in an error does not count as gone, even when
    it reports that the app does not exist. *)
Theorem removeApp_succeeds (more : list string) (k : nat) (w : World) :
  appName <> EmptyString ->
  RemoveApp lifecycle appName = None ->
  (forall j, (j < k)%nat -> ~ gone lifecycle appName (polls (sys w) + j)) ->
  gone lifecycle appName (polls (sys w) + k) ->
  Z.of_nat k * Second < timeout factory ->
  removeApp factory lifecycle (appName :: more) w =
  (tt,
   {| now := now w + Z.of_nat k * Second;
      pollTimes := (pollTimes w ++ instants (now w) (S k))%list;
      sys := {| trace :=
                  (trace (sys w)
                   ++ [ui_Say ("Removing " +:+ appName)]
                   ++ repeat (ui_Say ".") k
                   ++ [ui_NewLine;
                       ui_Say (colors.Green ("Successfully Removed " +:+ appName +:+ "."))])%list;
                polls := (polls (sys w) + S k)%nat;
                placementErrorOccurred := placementErrorOccurred (sys w) |} |}).
Proof.
  intros Hname Hremove Hbefore Hgone Htime.
  apply String.eqb_neq in Hname.
  unfold removeApp, cli.Get. cbn [nth]. rewrite Hname, Hremove.
  unfold pollUntilSuccess, bind, lift, clock_Now, emit.
  cbn beta iota zeta. cbn [sys now pollTimes trace polls placementErrorOccurred fst snd].
  match goal with
  | |- context [pollLoop _ _ _ _ ?w0] => rewrite (pollLoop_removed (now w) k w0)
  end;
    cbn [sys now pollTimes trace polls placementErrorOccurred fst snd];
    [|exact Hbefore|exact Hgone|lia].
  f_equal. f_equal. f_equal. rewrite <- !app_assoc. reflexivity.
Qed.

(** X20: [removeApp] does not poll when the cluster refuses the removal: it
    says the error and the clock does not move.  When the removal is
    accepted but none of the [ceil(timeout / 1s)] polls before the deadline
    finds the app gone with no error, it sleeps after each of them, a dot
    each, and says in red that it failed to remove the app. *)
Theorem removeApp_fails (more : list string) (w : World) :
  appName <> EmptyString ->
  (forall err,
      RemoveApp lifecycle appName = Some err ->
      removeApp factory lifecycle (appName :: more) w =
      (tt, after_event w (ui_Say ("Error Stopping App: " +:+ err)))) /\
  (RemoveApp lifecycle appName = None ->
   (forall j, (j < secondsBegun (timeout factory))%nat ->
              ~ gone lifecycle appName (polls (sys w) + j)) ->
   removeApp factory lifecycle (appName :: more) w =
   (tt,
    {| now := now w + Z.of_nat (secondsBegun (timeout factory)) * Second;
       pollTimes := (pollTimes w
                     ++ instants (now w) (secondsBegun (timeout factory)))%list;
       sys := {| trace :=
                   (trace (sys w)
                    ++ [ui_Say ("Removing " +:+ appName)]
                    ++ repeat (ui_Say ".") (secondsBegun (timeout factory))
                    ++ [ui_NewLine;
                        ui_Say (colors.Red ("Failed to remove " +:+ appName +:+ "."))])%list;
                 polls := (polls (sys w) + secondsBegun (timeout factory))%nat;
                 placementErrorOccurred := placementErrorOccurred (sys w) |} |})).
Proof.
  intros Hname. apply String.eqb_neq in Hname.
  split.
  - intros err Herr. unfold removeApp, cli.Get. cbn [nth]. rewrite Hname, Herr.
    reflexivity.
  - intros Hremove Hall.
    unfold removeApp, cli.Get. cbn [nth]. rewrite Hname, Hremove.
    unfold pollUntilSuccess, bind, lift, clock_Now, emit.
    cbn beta iota zeta. cbn [sys now pollTimes trace polls placementErrorOccurred fst snd].
    match goal with
    | |- context [pollLoop _ _ _ _ ?w0] =>
        rewrite (pollLoop_not_removed (now w) (secondsBegun (timeout factory)) w0)
    end;
      cbn [sys now pollTimes trace polls placementErrorOccurred fst snd];
      [|apply sleepsLeft_secondsBegun|exact Hall].
    f_equal. f_equal. f_equal. rewrite <- !app_assoc. reflexivity.
Qed.

End Removal.

Lemma removeApp_succeeds_witness :
  trace (sys (snd (removeApp (exampleFactory idleRunner 5) slowRemoval ["app"] epoch))) =
  [ui_Say ("Removing " +:+ "app"); ui_Say "."; ui_Say "."; ui_NewLine;
   ui_Say (colors.Green ("Successfully Removed " +:+ "app" +:+ "."))].
Proof.
  rewrite (removeApp_succeeds (exampleFactory idleRunner 5) slowRemoval "app" [] 2 epoch).
  - reflexivity.
  - discriminate.
  - reflexivity.
  - intros [|[|j]] Hj; [discriminate|discriminate|lia].
  - reflexivity.
  - reflexivity.
Defined.

Lemma removeApp_fails_witness :
  trace (sys (snd (removeApp (exampleFactory idleRunner 2) unreachable ["app"] epoch))) =
  [ui_Say ("Removing " +:+ "app"); ui_Say "."; ui_Say "."; ui_NewLine;
   ui_Say (colors.Red ("Failed to remove " +:+ "app" +:+ "."))].
Proof.
  rewrite (proj2 (removeApp_fails (exampleFactory idleRunner 2) unreachable "app" [] epoch
                    ltac:(discriminate)) eq_refl).
  - reflexivity.
  - intros j Hj. discriminate.
Defined.
